(** * Realtime subtitle translator: reconciliation, synthesis batching and
      service supervision

    A shallow embedding of the two programs of the repository:
    - [gummy.py]            (module [Gummy]): the windowed application with
      [ModernFloatingSubtitleWindow] and [TranslationService];
    - [gummy_translator.py] (module [GummyTranslator]): the original script
      with [FloatingSubtitleWindow], [gummyAsrTask] and [cosyvoiceTtsTask].

    Python values are modelled as follows.  A [str] is the list of its code
    points; the two-element list [[fixed_text, unfixed_text]] is a pair; a
    raised exception is the [Raises] outcome of a small error monad; the
    recognition service's result objects are records with the attributes the
    programs read. *)

From Stdlib Require Import NArith List String Ascii Bool Lia.
From stdpp Require Import base list gmap strings.

Open Scope list_scope.

(** ** Python strings *)

(** A Python [str]: its code points, in order.  [len] is [length], [+] is
    [++] and [''.join] is [concat]. *)
Abbreviation pystr := (list N).

(** Reading of a literal of this file (UTF-8 bytes) as code points. *)
Fixpoint utf8_decode (need : nat) (acc : N) (bs : list ascii) : pystr :=
  match bs with
  | [] => []
  | b :: bs' =>
      let n := N_of_ascii b in
      match need with
      | O =>
          if (n <? 128)%N then n :: utf8_decode 0 0 bs'
          else if (n <? 224)%N then utf8_decode 1 (N.land n 31) bs'
          else if (n <? 240)%N then utf8_decode 2 (N.land n 15) bs'
          else utf8_decode 3 (N.land n 7) bs'
      | S k =>
          let acc' := (acc * 64 + N.land n 63)%N in
          match k with
          | O => acc' :: utf8_decode 0 0 bs'
          | S _ => utf8_decode k acc' bs'
          end
      end
  end.

Definition ustr (s : string) : pystr :=
  utf8_decode 0 0 (list_ascii_of_string s).

Definition str_eqb (a b : pystr) : bool := bool_decide (a = b).

(** ** Outcomes of Python code that may raise *)

Inductive exn := IndexError | TypeError.

Inductive outcome (A : Type) :=
| Returns (a : A)
| Raises (e : exn).
Arguments Returns {A} a.
Arguments Raises {A} e.

#[global] Instance outcome_ret : MRet outcome := fun A a => Returns a.

#[global] Instance outcome_bind : MBind outcome := fun A B k m =>
  match m with
  | Returns a => k a
  | Raises e => Raises e
  end.

(** ** The recognition service's result objects *)

(** [word.text], [word.fixed]. *)
Record Word := { text : pystr; fixed : bool }.

(** [result.words], [result.is_sentence_end], [result.stash] ([None] or an
    object whose [words] are read). *)
Record Result := {
  words : list Word;
  is_sentence_end : bool;
  stash : option (list Word)
}.

(** One entry of a text buffer: [[fixed_text, unfixed_text]]. *)
Abbreviation line := (pystr * pystr)%type.

Definition empty_line : line := ([], []).

(** [''.join(word.text for word in ws if word.fixed)] and its negation. *)
Definition fixed_text (ws : list Word) : pystr :=
  concat (map text (List.filter fixed ws)).

Definition unfixed_text (ws : list Word) : pystr :=
  concat (map text (List.filter (fun w => negb (fixed w)) ws)).

(** [x[0] + x[1]] *)
Definition line_text (x : line) : pystr := x.1 ++ x.2.

(** [l[:-1]] *)
Definition but_last {A} (l : list A) : list A := take (length l - 1) l.

(** [l[-n:]] for [n > 0] *)
Definition last_n {A} (n : nat) (l : list A) : list A := drop (length l - n) l.

(** * gummy.py *)

Module Gummy.

(** A text buffer is created as [deque([['', '']], maxlen=MAX_BUFFER_SIZE)]
    and re-created by [apply_settings] as the plain list [[['', '']]]. *)
Inductive buffer :=
| PyList (l : list line)
| Deque (maxlen : nat) (l : list line).

Definition MAX_BUFFER_SIZE : nat := 20.

Definition items (b : buffer) : list line :=
  match b with
  | PyList l => l
  | Deque _ l => l
  end.

Definition with_items (b : buffer) (l : list line) : buffer :=
  match b with
  | PyList _ => PyList l
  | Deque m _ => Deque m l
  end.

(** [len(b)] *)
Definition len (b : buffer) : nat := length (items b).

(** [b[-1] = v]: index [len(b) - 1]; raises on an empty buffer. *)
Definition set_last (b : buffer) (v : line) : outcome buffer :=
  match items b with
  | [] => Raises IndexError
  | l => Returns (with_items b (<[length l - 1 := v]> l))
  end.

(** [b.append(v)]: a bounded deque discards from the left what exceeds
    [maxlen]. *)
Definition append (b : buffer) (v : line) : buffer :=
  match b with
  | PyList l => PyList (l ++ [v])
  | Deque m l => Deque m (last_n m (l ++ [v]))
  end.

(** [b[-n:]]: a deque does not support slices. *)
Definition slice_last (n : nat) (b : buffer) : outcome buffer :=
  match b with
  | PyList l => Returns (PyList (last_n n l))
  | Deque _ _ => Raises TypeError
  end.

(** The text box after [Clear()], [WriteText(full_text)] when [full_text] is
    not empty, and [WriteText(text_buffer[-1][0] + text_buffer[-1][1])]. *)
Definition write_text_box (l : list line) : outcome pystr :=
  let full_text := concat (map line_text (but_last l)) in
  let written := match full_text with [] => [] | _ => full_text end in
  match last l with
  | None => Raises IndexError
  | Some t => Returns (written ++ line_text t)
  end.

(** The inner function [process_result(result, text_buffer, text_box)] of
    [update_text]; the text box is its content. *)
Definition process_result (result : option Result) (text_buffer : buffer)
    (text_box : pystr) : outcome (buffer * pystr) :=
  match result with
  | None => Returns (text_buffer, text_box)
  | Some r =>
      let fixed_text := fixed_text (words r) in
      let unfixed_text := unfixed_text (words r) in
      b1 ← set_last text_buffer (fixed_text, unfixed_text);
      let b2 := if is_sentence_end r then append b1 empty_line else b1 in
      shown ← write_text_box (items b2);
      Returns (b2, shown)
  end.

(** The part of the window that [update_text] reads and writes. *)
Record window := {
  chinese_text_buffer : buffer;
  target_language_text_buffer : buffer;
  chinese_text_box : pystr;
  target_text_box : pystr
}.

(** [__init__] *)
Definition init_window : window := {|
  chinese_text_buffer := Deque MAX_BUFFER_SIZE [empty_line];
  target_language_text_buffer := Deque MAX_BUFFER_SIZE [empty_line];
  chinese_text_box := [];
  target_text_box := []
|}.

(** [update_text(transcription_result, translation_result)].  [translation]
    is [translation_result.get_translation(target_lang)] when
    [translation_result] is given, and [None] otherwise. *)
Definition update_text (transcription_result translation : option Result)
    (w : window) : outcome window :=
  tb ← (if (MAX_BUFFER_SIZE <? len (target_language_text_buffer w))%nat
         then slice_last MAX_BUFFER_SIZE (target_language_text_buffer w)
         else Returns (target_language_text_buffer w));
  c ← process_result transcription_result (chinese_text_buffer w)
         (chinese_text_box w);
  t ← process_result translation tb (target_text_box w);
  Returns {| chinese_text_buffer := c.1;
             target_language_text_buffer := t.1;
             chinese_text_box := c.2;
             target_text_box := t.2 |}.

(** The branch of [apply_settings] taken when the language changed: both
    buffers are re-created as plain lists and both boxes cleared. *)
Definition apply_settings_language_changed (w : window) : window := {|
  chinese_text_buffer := PyList [empty_line];
  target_language_text_buffer := PyList [empty_line];
  chinese_text_box := [];
  target_text_box := []
|}.

(** ** The translation service *)

(** Texts posted to the status bar. *)
Inductive status :=
| ServiceStarted | ServiceStopped | NoApiKey | NoTtsApiKey | StartFailed
| NetworkProblem | DeviceProblem | InvalidApiKey | ServiceException.

Inductive worker := AsrThread | TtsThread.

(** What the service does to the outside world, in order. *)
Inductive effect :=
| Sleep (ms : nat)
| PostStatus (s : status)
| Log
| Synthesize (input : pystr)
| ReadFrame
| SendFrame
| Acquire
| Release
| StopStream
| CloseStream
| Terminate
| StartThread (w : worker)
| Join (w : worker) (timeout_ms : nat)
| StopTranslator.

(** An item of [asr_fixed_words]: [[word, is_sentence_end]]. *)
Abbreviation fixed_word := (pystr * bool)%type.

(** The attributes of a [TranslationService].  [audio_stream] and [mic]
    tell whether the attribute holds an object; a thread attribute is absent
    ([None]) or holds a thread that is alive or not. *)
Record service := {
  is_running : bool;
  source_language : pystr;
  target_language : pystr;
  config : gmap (string * string) pystr;
  api_key : pystr;
  enable_tts : bool;
  wx_text_queue : list (option Result * option Result);
  asr_fixed_words : list fixed_word;
  audio_stream : bool;
  mic : bool;
  asr_thread : option bool;
  tts_thread : option bool
}.

Definition set_is_running (v : bool) (s : service) : service :=
  {| is_running := v;
     source_language := source_language s; target_language := target_language s;
     config := config s; api_key := api_key s; enable_tts := enable_tts s;
     wx_text_queue := wx_text_queue s; asr_fixed_words := asr_fixed_words s;
     audio_stream := audio_stream s; mic := mic s;
     asr_thread := asr_thread s; tts_thread := tts_thread s |}.

Definition set_languages_fields (src tgt : pystr)
    (c : gmap (string * string) pystr) (s : service) : service :=
  {| is_running := is_running s;
     source_language := src; target_language := tgt;
     config := c; api_key := api_key s; enable_tts := enable_tts s;
     wx_text_queue := wx_text_queue s; asr_fixed_words := asr_fixed_words s;
     audio_stream := audio_stream s; mic := mic s;
     asr_thread := asr_thread s; tts_thread := tts_thread s |}.

Definition set_queues (wx : list (option Result * option Result))
    (fw : list fixed_word) (s : service) : service :=
  {| is_running := is_running s;
     source_language := source_language s; target_language := target_language s;
     config := config s; api_key := api_key s; enable_tts := enable_tts s;
     wx_text_queue := wx; asr_fixed_words := fw;
     audio_stream := audio_stream s; mic := mic s;
     asr_thread := asr_thread s; tts_thread := tts_thread s |}.

Definition set_audio (stream m : bool) (s : service) : service :=
  {| is_running := is_running s;
     source_language := source_language s; target_language := target_language s;
     config := config s; api_key := api_key s; enable_tts := enable_tts s;
     wx_text_queue := wx_text_queue s; asr_fixed_words := asr_fixed_words s;
     audio_stream := stream; mic := m;
     asr_thread := asr_thread s; tts_thread := tts_thread s |}.

Definition set_threads (a t : option bool) (s : service) : service :=
  {| is_running := is_running s;
     source_language := source_language s; target_language := target_language s;
     config := config s; api_key := api_key s; enable_tts := enable_tts s;
     wx_text_queue := wx_text_queue s; asr_fixed_words := asr_fixed_words s;
     audio_stream := audio_stream s; mic := mic s;
     asr_thread := a; tts_thread := t |}.

(** ** The recognizer callback and the synthesis queue *)

Record callback := {
  sentence_ptr : nat;
  zh_word_ptr : nat;
  tg_word_ptr : nat
}.

(** [Callback.__init__] *)
Definition init_callback : callback :=
  {| sentence_ptr := 0; zh_word_ptr := 0; tg_word_ptr := 0 |}.

(** One round of
    [for i, word in enumerate(words): if word.fixed and i >= self.tg_word_ptr],
    on the pair of [tg_word_ptr] and the queue. *)
Definition put_if_new (st : nat * list fixed_word) (iw : nat * Word)
    : nat * list fixed_word :=
  if fixed iw.2 && (st.1 <=? iw.1)%nat
  then (S st.1, st.2 ++ [(text iw.2, false)])
  else st.

(** [enumerate(ws)] *)
Definition enumerate {A} (ws : list A) : list (nat * A) := imap pair ws.

(** [Callback.on_event].  [translation] is
    [translation_result.get_translation(lang)] when [translation_result] is
    given, and [None] otherwise. *)
Definition on_event (transcription_result translation : option Result)
    (cb : callback) (s : service) : callback * service :=
  let wx := wx_text_queue s ++ [(transcription_result, translation)] in
  match translation with
  | Some tr =>
      if enable_tts s then
        let st := fold_left put_if_new (enumerate (words tr))
                    (tg_word_ptr cb, asr_fixed_words s) in
        if is_sentence_end tr then
          ({| sentence_ptr := S (sentence_ptr cb);
              zh_word_ptr := 0; tg_word_ptr := 0 |},
           set_queues wx (st.2 ++ [([], true)]) s)
        else
          ({| sentence_ptr := sentence_ptr cb;
              zh_word_ptr := zh_word_ptr cb; tg_word_ptr := st.1 |},
           set_queues wx st.2 s)
      else (cb, set_queues wx (asr_fixed_words s) s)
  | None => (cb, set_queues wx (asr_fixed_words s) s)
  end.

(** A sequence of events delivered to one callback. *)
Definition on_events (evs : list (option Result * option Result))
    (cb : callback) (s : service) : callback * service :=
  fold_left (fun st ev => on_event ev.1 ev.2 st.1 st.2) evs (cb, s).

(** ** The synthesis loop [tts_task] *)

Definition breath : pystr := ustr "[breath][breath][breath]".

Definition boundary_marks : list pystr := [ustr "、"; ustr "，"; ustr "。"].

(** What the [try] block around the request does: the service answers with
    a status code and the block runs to its end, or the request or the
    playback raises. *)
Inductive request_outcome :=
| Responded (status_code : nat)
| Raised.

(** The test of the [if] that guards the request. *)
Definition flushes (word : pystr) (is_sentence_end : bool) (buffer : pystr)
    : bool :=
  is_sentence_end
  || (bool_decide (word ∈ boundary_marks) && (15 <? length buffer)%nat).

(** The body of the [while self.is_running] loop of [tts_task], on the local
    [buffer] and the queue [asr_fixed_words] of the service. *)
Definition tts_iteration (req : request_outcome) (buffer : pystr)
    (s : service) : pystr * service * list effect :=
  if negb (enable_tts s) then (buffer, s, [Sleep 100])
  else
    match asr_fixed_words s with
    | [] => (buffer, s, [Sleep 10])
    | (word, is_sentence_end) :: rest =>
        let s' := set_queues (wx_text_queue s) rest s in
        if flushes word is_sentence_end buffer then
          let word := word ++ breath in
          let buffer := buffer ++ word in
          match req with
          | Responded status_code =>
              (if (status_code =? 200)%nat
               then ([], s', [Synthesize buffer])
               else ([], s', [Synthesize buffer; Log]))
          | Raised => (buffer, s', [Synthesize buffer; Log])
          end
        else (buffer ++ word, s', [])
    end.

(** ** The recognition loop [asr_task] *)

(** What one pass of the feed loop observes: [self.is_running],
    [self.audio_stream] and whether reading and sending the frame raise. *)
Record tick := {
  running : bool;
  stream_open : bool;
  frame_ok : bool
}.

(** Whether the feed loop was left, or is still looping when the
    observations end. *)
Inductive loop_state := Left | Looping.

(** The feed loop [while self.is_running: if self.audio_stream: ...]. *)
Fixpoint feed_loop (ticks : list tick) : list effect * loop_state :=
  match ticks with
  | [] => ([], Looping)
  | t :: ticks' =>
      if negb (running t) then ([], Left)
      else
        let now :=
          if stream_open t then
            if frame_ok t then [ReadFrame; SendFrame]
            else [Log; Sleep 100]
          else [Sleep 100] in
        let later := feed_loop ticks' in
        (now ++ later.1, later.2)
  end.







(** ** Starting, stopping and reconfiguring the service *)

(** [SUPPORTED_LANGUAGES] *)
Definition SUPPORTED_LANGUAGES : gmap pystr pystr :=
  list_to_map [
    (ustr "zh-CN", ustr "中文");
    (ustr "en-US", ustr "英文");
    (ustr "ja-JP", ustr "日语");
    (ustr "ko-KR", ustr "韩语");
    (ustr "fr-FR", ustr "法语");
    (ustr "de-DE", ustr "德语");
    (ustr "es-ES", ustr "西班牙语");
    (ustr "ru-RU", ustr "俄语");
    (ustr "it-IT", ustr "意大利语");
    (ustr "pt-PT", ustr "葡萄牙语") ].

(** [lang in self.SUPPORTED_LANGUAGES] *)
Definition supported (lang : pystr) : bool :=
  bool_decide (is_Some (SUPPORTED_LANGUAGES !! lang)).

(** What the service cannot decide itself: whether the device calls raise,
    whether starting a thread raises, and whether a thread ends within the
    timeout of a [join]. *)
Record env := {
  stop_stream_raises : bool;
  close_raises : bool;
  terminate_raises : bool;
  thread_start_raises : worker -> bool;
  ends_in_time : worker -> bool
}.

(** [ConfigManager.get(section, key, fallback)] and
    [ConfigManager.set(section, key, value)]; the sections that the program
    writes exist since [ConfigManager.load]. *)
Definition config_get (c : gmap (string * string) pystr)
    (section key : string) (fallback : pystr) : pystr :=
  default fallback (c !! (section, key)).

Definition config_set (c : gmap (string * string) pystr)
    (section key : string) (value : pystr) : gmap (string * string) pystr :=
  <[(section, key) := value]> c.

(** The guarded closing of the stream and of PyAudio, as
    [close_audio_resources] and the tail of [release_resources] do it under
    [pyaudio_lock]: an exception is logged, and the attribute is cleared in
    any case. *)
Definition close_guarded (e : env) (s : service) : service * list effect :=
  let stream_effs :=
    if audio_stream s then
      if stop_stream_raises e then [StopStream; Log]
      else if close_raises e then [StopStream; CloseStream; Log]
      else [StopStream; CloseStream]
    else [] in
  let mic_effs :=
    if mic s then
      if terminate_raises e then [Terminate; Log] else [Terminate]
    else [] in
  (set_audio false false s, [Acquire] ++ stream_effs ++ mic_effs ++ [Release]).

(** [close_audio_resources] *)
Definition close_audio_resources (e : env) (s : service)
    : service * list effect :=
  close_guarded e s.

(** The last block of [stop], which closes without a [try]; it finds the
    attributes already cleared by [close_audio_resources]. *)
Definition close_again (s : service) : service * list effect :=
  let stream_effs := if audio_stream s then [StopStream; CloseStream] else [] in
  let mic_effs := if mic s then [Terminate] else [] in
  (set_audio false false s, [Acquire] ++ stream_effs ++ mic_effs ++ [Release]).

(** [stop] *)
Definition stop (e : env) (s : service) : service * list effect :=
  let s1 := set_is_running false s in
  let r2 := close_audio_resources e s1 in
  let r3 := close_again r2.1 in
  (r3.1, [PostStatus ServiceStopped] ++ r2.2 ++ r3.2).

(** [start] *)
Definition start (e : env) (s : service) : service * list effect :=
  if is_running s || bool_decide (api_key s = []) then
    (s, if bool_decide (api_key s = []) then [PostStatus NoApiKey] else [])
  else
    let s1 := set_is_running true s in
    if thread_start_raises e AsrThread then
      (set_is_running false (set_threads (Some false) (tts_thread s1) s1),
       [PostStatus ServiceStarted; StartThread AsrThread;
        Log; PostStatus StartFailed])
    else
      let s2 := set_threads (Some true) (tts_thread s1) s1 in
      if enable_tts s2 then
        if bool_decide (config_get (config s2) "API" "tts_api_key" [] = [])
        then
          (s2, [PostStatus ServiceStarted; StartThread AsrThread;
                PostStatus NoTtsApiKey; Log])
        else if thread_start_raises e TtsThread then
          (set_is_running false (set_threads (asr_thread s2) (Some false) s2),
           [PostStatus ServiceStarted; StartThread AsrThread;
            StartThread TtsThread; Log; PostStatus StartFailed])
        else
          (set_threads (asr_thread s2) (Some true) s2,
           [PostStatus ServiceStarted; StartThread AsrThread;
            StartThread TtsThread])
      else (s2, [PostStatus ServiceStarted; StartThread AsrThread]).



(** [set_languages(source_lang, target_lang)] *)
Definition set_languages (e : env) (source_lang target_lang : pystr)
    (s : service) : bool * service * list effect :=
  if supported source_lang && supported target_lang then
    let c := config_set (config s) "Language" "source_language" source_lang in
    let c := config_set c "Language" "target_language" target_lang in
    let s1 := set_languages_fields source_lang target_lang c s in
    let was_running := is_running s1 in
    if was_running then
      let r2 := stop e s1 in
      let r3 := start e r2.1 in
      (true, r3.1, r2.2 ++ [Sleep 500] ++ r3.2)
    else (true, s1, [])
  else (false, s, []).

(** ** The rest of the service *)

(** [process_queue_safely(max_items)]: at most [max_items] rounds of
    [get_nowait], left at the first [queue.Empty]. *)
Fixpoint process_queue_safely (max_items : nat) (s : service)
    : list (option Result * option Result) * service :=
  match max_items with
  | O => ([], s)
  | S n =>
      match wx_text_queue s with
      | [] => ([], s)
      | item :: rest =>
          let r := process_queue_safely n (set_queues rest (asr_fixed_words s) s) in
          (item :: r.1, r.2)
      end
  end.

(** [TranslationService.__init__]: the attributes read from the
    configuration, empty queues, no device, not running, no thread attribute
    yet.  [tts] is what [config.getboolean('Features', 'enable_tts')]
    returns. *)
Definition new_service (c : gmap (string * string) pystr) (tts : bool)
    : service := {|
  is_running := false;
  source_language := config_get c "Language" "source_language" (ustr "zh-CN");
  target_language := config_get c "Language" "target_language" (ustr "en-US");
  config := c;
  api_key := config_get c "API" "api_key" [];
  enable_tts := tts;
  wx_text_queue := [];
  asr_fixed_words := [];
  audio_stream := false;
  mic := false;
  asr_thread := None;
  tts_thread := None
|}.

(** [Callback.on_open]: under [pyaudio_lock], [mic] is set, then
    [audio_stream] unless opening the stream raises. *)
Definition on_open (open_raises : bool) (s : service) : service :=
  if open_raises then set_audio (audio_stream s) true s
  else set_audio true true s.

(** [Callback.on_close]: under [pyaudio_lock] and without a [try]; [true]
    in the result tells that a device call raised and the rest was
    skipped. *)
Definition on_close (e : env) (s : service) : service * list effect * bool :=
  if audio_stream s then
    if stop_stream_raises e then (s, [Acquire; StopStream; Release], true)
    else if close_raises e
    then (s, [Acquire; StopStream; CloseStream; Release], true)
    else if mic s then
      if terminate_raises e
      then (set_audio false true s,
            [Acquire; StopStream; CloseStream; Terminate; Release], true)
      else (set_audio false false s,
            [Acquire; StopStream; CloseStream; Terminate; Release], false)
    else (set_audio false false s,
          [Acquire; StopStream; CloseStream; Release], false)
  else if mic s then
    if terminate_raises e
    then (s, [Acquire; Terminate; Release], true)
    else (set_audio false false s, [Acquire; Terminate; Release], false)
  else (s, [Acquire; Release], false).

(** What [check_and_restart] does besides the effects of [stop] and
    [start]: the warning and the status "service interrupted". *)
Inductive monitor_effect :=
| WarnInterrupted
| Restart (e : effect).

(** [check_and_restart] *)
Definition check_and_restart (e : env) (s : service)
    : service * list monitor_effect :=
  if negb (is_running s) then (s, [])
  else
    let threads_alive := true in
    let threads_alive :=
      match asr_thread s with
      | Some alive => threads_alive && alive
      | None => threads_alive
      end in
    let threads_alive :=
      match tts_thread s with
      | Some alive =>
          if enable_tts s then threads_alive && alive else threads_alive
      | None => threads_alive
      end in
    if negb threads_alive && is_running s then
      let r1 := stop e s in
      let r2 := start e r1.1 in
      (r2.1, WarnInterrupted :: map Restart (r1.2 ++ [Sleep 1000] ++ r2.2))
    else (s, []).

(** ** Storing the API keys *)

Section ApiKeys.

(** The cipher [save_api_key] and [load_api_key] build (Fernet, or base64
    when the library is missing): the token for a key, and the key of a
    token or [None] when decrypting raises. *)
Variable encrypt : pystr -> pystr.
Variable decrypt : pystr -> option pystr.

(** [f"{key_type}_encoded"] *)
Definition encoded_option (key_type : string) : string :=
  String.append key_type "_encoded".

(** [ConfigManager.save_api_key(api_key, key_type)] *)
Definition save_api_key (c : gmap (string * string) pystr) (api_key : pystr)
    (key_type : string) : gmap (string * string) pystr :=
  match api_key with
  | [] =>
      let c := config_set c "API" key_type [] in
      config_set c "API" (encoded_option key_type) []
  | _ =>
      let encrypted_key := encrypt api_key in
      let c := config_set c "API" (encoded_option key_type) encrypted_key in
      config_set c "API" key_type []
  end.

(** [ConfigManager.load_api_key(key_type)] *)
Definition load_api_key (c : gmap (string * string) pystr)
    (key_type : string) : pystr :=
  let encoded_key := config_get c "API" (encoded_option key_type) [] in
  match encoded_key with
  | [] => config_get c "API" key_type []
  | _ =>
      match decrypt encoded_key with
      | Some key => key
      | None => []
      end
  end.

End ApiKeys.

(** ** Playing the synthesized audio *)

(** A byte of the response body. *)
Abbreviation byte := Byte.byte.





(** ** Choosing the languages in the dialogs *)





End Gummy.

(** * gummy_translator.py *)

Module GummyTranslator.

(** The loop [for word in ws: if word.fixed: fixed_text += word.text
    else: unfixed_text += word.text], from two empty strings. *)
Definition split_words (ws : list Word) : line :=
  fold_left (fun acc w =>
    if fixed w then (acc.1 ++ text w, acc.2) else (acc.1, acc.2 ++ text w))
    ws ([], []).

(** [l[-1] = v] on a list. *)
Definition set_last (l : list line) (v : line) : outcome (list line) :=
  match l with
  | [] => Raises IndexError
  | _ => Returns (<[length l - 1 := v]> l)
  end.

(** The text box after [Clear()], [WriteText] of the closed lines when
    [len(text_buffer) > 1], and [WriteText] of the tail line. *)
Definition write_text_box (l : list line) : outcome pystr :=
  let written :=
    if (1 <? length l)%nat then concat (map line_text (but_last l)) else [] in
  match last l with
  | None => Raises IndexError
  | Some t => Returns (written ++ line_text t)
  end.

(** The inner function [process_result(result, text_buffer, text_box)] of
    [update_text].  The words of the stash are read with the same [fixed]
    flag and [text] as the words of the result. *)
Definition process_result (result : option Result) (text_buffer : list line)
    (text_box : pystr) : outcome (list line * pystr) :=
  b1 ← match result with
       | Some r =>
           b ← set_last text_buffer (split_words (words r));
           Returns (if is_sentence_end r then b ++ [empty_line] else b)
       | None => Returns text_buffer
       end;
  b2 ← match result with
       | Some r =>
           match stash r with
           | Some stash_words => set_last b1 (split_words stash_words)
           | None => Returns b1
           end
       | None => Returns b1
       end;
  shown ← write_text_box b2;
  Returns (b2, shown).

Record window := {
  chinese_text_buffer : list line;
  target_language_text_buffer : list line;
  chinese_text_box : pystr;
  target_language_text_box : pystr
}.

(** [__init__] *)
Definition init_window : window := {|
  chinese_text_buffer := [empty_line];
  target_language_text_buffer := [empty_line];
  chinese_text_box := [];
  target_language_text_box := []
|}.

(** [update_text(asr_result, translation_result)].  [translation] is
    [translation_result.get_translation('zh')] when [translation_result] is
    given, and [None] otherwise. *)
Definition update_text (asr_result translation : option Result) (w : window)
    : outcome window :=
  c ← match asr_result with
      | Some _ =>
          process_result asr_result (chinese_text_buffer w) (chinese_text_box w)
      | None => Returns (chinese_text_buffer w, chinese_text_box w)
      end;
  t ← match translation with
      | Some _ =>
          process_result translation (target_language_text_buffer w)
            (target_language_text_box w)
      | None =>
          Returns (target_language_text_buffer w, target_language_text_box w)
      end;
  Returns {| chinese_text_buffer := c.1;
             target_language_text_buffer := t.1;
             chinese_text_box := c.2;
             target_language_text_box := t.2 |}.

(** The pointers of the callback of [gummyAsrTask]. *)
Record callback := {
  sentence_ptr : nat;
  zh_word_ptr : nat;
  tg_word_ptr : nat
}.

Definition init_callback : callback :=
  {| sentence_ptr := 0; zh_word_ptr := 0; tg_word_ptr := 0 |}.

(** The module's queues [wx_text_queue] and [asr_fixed_words]. *)
Record queues := {
  wx_text_queue : list (option Result * option Result);
  asr_fixed_words : list (pystr * bool)
}.

(** One round of the loop over the transcription: a fixed word at or after
    [zh_word_ptr] advances the pointer. *)
Definition count_if_new (ptr : nat) (iw : nat * Word) : nat :=
  if fixed iw.2 then (if (ptr <=? iw.1)%nat then S ptr else ptr) else ptr.

(** One round of the loop over the translation: a fixed word at or after
    [tg_word_ptr] is put on [asr_fixed_words]. *)
Definition put_if_new (st : nat * list (pystr * bool)) (iw : nat * Word)
    : nat * list (pystr * bool) :=
  if fixed iw.2 then
    (if (st.1 <=? iw.1)%nat
     then (S st.1, st.2 ++ [(text iw.2, false)])
     else st)
  else st.

(** [Callback.on_event] *)
Definition on_event (transcription_result translation : option Result)
    (cb : callback) (q : queues) : callback * queues :=
  let zh :=
    match transcription_result with
    | Some r => fold_left count_if_new (imap pair (words r)) (zh_word_ptr cb)
    | None => zh_word_ptr cb
    end in
  let wx := wx_text_queue q ++ [(transcription_result, translation)] in
  match translation with
  | Some tr =>
      let st := fold_left put_if_new (imap pair (words tr))
                  (tg_word_ptr cb, asr_fixed_words q) in
      if is_sentence_end tr then
        ({| sentence_ptr := S (sentence_ptr cb);
            zh_word_ptr := 0; tg_word_ptr := 0 |},
         {| wx_text_queue := wx; asr_fixed_words := st.2 ++ [([], true)] |})
      else
        ({| sentence_ptr := sentence_ptr cb;
            zh_word_ptr := zh; tg_word_ptr := st.1 |},
         {| wx_text_queue := wx; asr_fixed_words := st.2 |})
  | None =>
      ({| sentence_ptr := sentence_ptr cb;
          zh_word_ptr := zh; tg_word_ptr := tg_word_ptr cb |},
       {| wx_text_queue := wx; asr_fixed_words := asr_fixed_words q |})
  end.

Definition on_events (evs : list (option Result * option Result))
    (cb : callback) (q : queues) : callback * queues :=
  fold_left (fun st ev => on_event ev.1 ev.2 st.1 st.2) evs (cb, q).

(** The test of the [if] that guards the request in [cosyvoiceTtsTask]. *)
Definition flushes (word : pystr) (is_sentence_end : bool) (buffer : pystr)
    : bool :=
  is_sentence_end
  || ((str_eqb word (ustr "、") || str_eqb word (ustr "，")
       || str_eqb word (ustr "。"))
      && (15 <? length buffer)%nat).

(** The body of the [while True] loop of [cosyvoiceTtsTask], on the local
    [buffer] and the queue [asr_fixed_words]; [enable_tts] is the module's
    flag. *)
Definition tts_iteration (enable_tts : bool) (req : Gummy.request_outcome)
    (buffer : pystr) (queue : list (pystr * bool))
    : pystr * list (pystr * bool) * list Gummy.effect :=
  if negb enable_tts then (buffer, queue, [Gummy.Sleep 100])
  else
    match queue with
    | [] => (buffer, queue, [Gummy.Sleep 10])
    | (word, is_sentence_end) :: rest =>
        if flushes word is_sentence_end buffer then
          let word := word ++ Gummy.breath in
          let buffer := buffer ++ word in
          match req with
          | Gummy.Responded status_code =>
              (if (status_code =? 200)%nat
               then ([], rest, [Gummy.Synthesize buffer])
               else ([], rest, [Gummy.Synthesize buffer; Gummy.Log]))
          | Gummy.Raised => (buffer, rest, [Gummy.Synthesize buffer; Gummy.Log])
          end
        else (buffer ++ word, rest, [])
    end.

(** The feed loop [while True: if audio_stream: ... else: break] of
    [gummyAsrTask]; a pass observes [audio_stream] and whether reading and
    sending the frame raise. *)
Fixpoint feed_loop (ticks : list Gummy.tick)
    : list Gummy.effect * Gummy.loop_state :=
  match ticks with
  | [] => ([], Gummy.Looping)
  | t :: ticks' =>
      if Gummy.stream_open t then
        let now := if Gummy.frame_ok t
                   then [Gummy.ReadFrame; Gummy.SendFrame] else [Gummy.Log] in
        let later := feed_loop ticks' in
        (now ++ later.1, later.2)
      else ([], Gummy.Left)
  end.

(** The module's [mic] and [audio_stream]: whether each holds an object. *)
Record device := {
  mic : bool;
  audio_stream : bool
}.

(** [Callback.on_open]: [mic] is set, then [audio_stream] unless opening
    the stream raises. *)
Definition on_open (open_raises : bool) (d : device) : device :=
  if open_raises then {| mic := true; audio_stream := audio_stream d |}
  else {| mic := true; audio_stream := true |}.

(** [Callback.on_close]: nothing is done when [audio_stream] is [None];
    [true] in the result tells that a device call raised and the rest was
    skipped. *)
Definition on_close (e : Gummy.env) (d : device)
    : device * list Gummy.effect * bool :=
  if negb (audio_stream d) then (d, [], false)
  else if Gummy.stop_stream_raises e then (d, [Gummy.StopStream], true)
  else if Gummy.close_raises e
  then (d, [Gummy.StopStream; Gummy.CloseStream], true)
  else if Gummy.terminate_raises e
  then (d, [Gummy.StopStream; Gummy.CloseStream; Gummy.Terminate], true)
  else ({| mic := false; audio_stream := false |},
        [Gummy.StopStream; Gummy.CloseStream; Gummy.Terminate], false).

(** The keys [on_key_press] acts on. *)
Inductive key :=
| AltT | AltUp | AltDown | AltS | CtrlH | OtherKey.

(** What [on_key_press] reads and writes: the attributes of the window, the
    module's flag [enable_tts] and the queue [asr_fixed_words]. *)
Record controls := {
  is_dark_mode : bool;
  bg_alpha : Z;
  brightness : Z;
  has_titlebar : bool;
  enable_tts : bool;
  fixed_words : list (pystr * bool)
}.

(** The attributes after [__init__], with the module's flag and queue. *)
Definition init_controls : controls := {|
  is_dark_mode := false;
  bg_alpha := 0;
  brightness := 255;
  has_titlebar := true;
  enable_tts := false;
  fixed_words := []
|}.

(** [set_panel_alpha(alpha)]: [bg_alpha] and the brightness
    [int(1*(255 - alpha))] of the background colour. *)
Definition set_panel_alpha (alpha : Z) (c : controls) : controls :=
  {| is_dark_mode := is_dark_mode c;
     bg_alpha := alpha;
     brightness := (1 * (255 - alpha))%Z;
     has_titlebar := has_titlebar c;
     enable_tts := enable_tts c;
     fixed_words := fixed_words c |}.

(** [toggle_color_mode] *)
Definition toggle_color_mode (c : controls) : controls :=
  let dark := negb (is_dark_mode c) in
  set_panel_alpha (if dark then 255 else 0)
    {| is_dark_mode := dark;
       bg_alpha := bg_alpha c;
       brightness := brightness c;
       has_titlebar := has_titlebar c;
       enable_tts := enable_tts c;
       fixed_words := fixed_words c |}.

(** [on_key_press] *)
Definition on_key_press (k : key) (c : controls) : controls :=
  match k with
  | AltT => toggle_color_mode c
  | AltUp => set_panel_alpha (Z.min 255 (bg_alpha c + 20)) c
  | AltDown => set_panel_alpha (Z.max 0 (bg_alpha c - 20)) c
  | AltS =>
      let enabled := negb (enable_tts c) in
      {| is_dark_mode := is_dark_mode c;
         bg_alpha := bg_alpha c;
         brightness := brightness c;
         has_titlebar := has_titlebar c;
         enable_tts := enabled;
         fixed_words := if enabled then [] else fixed_words c |}
  | CtrlH =>
      {| is_dark_mode := is_dark_mode c;
         bg_alpha := bg_alpha c;
         brightness := brightness c;
         has_titlebar := negb (has_titlebar c);
         enable_tts := enable_tts c;
         fixed_words := fixed_words c |}
  | OtherKey => c
  end.

End GummyTranslator.

(** * Vocabulary of the properties *)

(** The line a result writes at the tail. *)
Definition tail_of (r : Result) : line :=
  (fixed_text (words r), unfixed_text (words r)).

(** The lines after a result replaced the tail [t] of [pre ++ [t]], before
    any eviction. *)
Definition replaced (r : Result) (pre : list line) : list line :=
  pre ++ tail_of r :: (if is_sentence_end r then [empty_line] else []).

Definition R1 : Result := {|
  words := [ {| text := ustr "他"; fixed := true |};
             {| text := ustr "好"; fixed := true |} ];
  is_sentence_end := false;
  stash := None |}.

Definition R2 : Result := {|
  words := [ {| text := ustr "他"; fixed := true |};
             {| text := ustr "好"; fixed := true |};
             {| text := ustr "。"; fixed := true |} ];
  is_sentence_end := true;
  stash := None |}.




(** The most lines a buffer holds after an [append]. *)
Definition capped (b : Gummy.buffer) (n : nat) : nat :=
  match b with
  | Gummy.PyList _ => n
  | Gummy.Deque m _ => min n m
  end.





(** [update_text] on each pair of a sequence, in order. *)
Fixpoint gummy_updates (evs : list (option Result * option Result))
    (w : Gummy.window) : outcome Gummy.window :=
  match evs with
  | [] => Returns w
  | ev :: evs' => w' ← Gummy.update_text ev.1 ev.2 w; gummy_updates evs' w'
  end.

(** An item of the queue is the end-of-sentence marker, or carries the text
    of a word that is fixed in the translation of one of the events. *)
Definition from_fixed_word (evs : list (option Result * option Result))
    (it : pystr * bool) : Prop :=
  it = ([], true)
  ∨ ∃ ev tr w,
      ev ∈ evs ∧ ev.2 = Some tr ∧ w ∈ words tr ∧ fixed w = true
      ∧ it = (text w, false).


(** A running service with synthesis enabled and an open device, whose
    queue holds [items]. *)
Definition service_with (items : list (pystr * bool)) : Gummy.service := {|
  Gummy.is_running := true;
  Gummy.source_language := ustr "zh-CN";
  Gummy.target_language := ustr "en-US";
  Gummy.config := ∅;
  Gummy.api_key := ustr "sk-key";
  Gummy.enable_tts := true;
  Gummy.wx_text_queue := [];
  Gummy.asr_fixed_words := items;
  Gummy.audio_stream := true;
  Gummy.mic := true;
  Gummy.asr_thread := Some true;
  Gummy.tts_thread := Some true
|}.







(** A pass of the feed loop that finds the service running and the device
    not open. *)
Definition waiting (t : Gummy.tick) : Prop :=
  Gummy.running t = true ∧ Gummy.stream_open t = false.

Definition closed_tick : Gummy.tick :=
  {| Gummy.running := true; Gummy.stream_open := false;
     Gummy.frame_ok := true |}.

(** The calls on the device and the log entries of their failures. *)
Definition device_call (e : Gummy.effect) : Prop :=
  e = Gummy.StopStream ∨ e = Gummy.CloseStream ∨ e = Gummy.Terminate
  ∨ e = Gummy.Log.


(** An environment in which nothing raises and every thread ends in time. *)
Definition calm : Gummy.env := {|
  Gummy.stop_stream_raises := false;
  Gummy.close_raises := false;
  Gummy.terminate_raises := false;
  Gummy.thread_start_raises := λ _, false;
  Gummy.ends_in_time := λ _, true
|}.

(** The keys of [SUPPORTED_LANGUAGES]. *)
Definition supported_codes : list pystr :=
  [ustr "zh-CN"; ustr "en-US"; ustr "ja-JP"; ustr "ko-KR"; ustr "fr-FR";
   ustr "de-DE"; ustr "es-ES"; ustr "ru-RU"; ustr "it-IT"; ustr "pt-PT"].

(** The queue item of a fixed word. *)
Definition item_of (w : Word) : pystr * bool := (text w, false).

(** The results of one sentence in which the fixed words come first and are
    never revised: each result keeps the fixed words [cur] of the one before
    it, may fix more words, and is followed by unfixed words only.  The last
    argument is the fixed prefix of the last result. *)
Inductive grows : list Word → list Result → list Word → Prop :=
| grows_nil cur : grows cur [] cur
| grows_cons cur r rs more unfixed final :
    words r = (cur ++ more) ++ unfixed →
    Forall (λ w, fixed w = true) (cur ++ more) →
    Forall (λ w, fixed w = false) unfixed →
    is_sentence_end r = false →
    grows (cur ++ more) rs final →
    grows cur (r :: rs) final.


(** A running service without synthesis whose recognition thread has
    died. *)
Definition dead_recognition : Gummy.service := {|
  Gummy.is_running := true;
  Gummy.source_language := ustr "zh-CN";
  Gummy.target_language := ustr "en-US";
  Gummy.config := ∅;
  Gummy.api_key := ustr "sk-key";
  Gummy.enable_tts := false;
  Gummy.wx_text_queue := [];
  Gummy.asr_fixed_words := [];
  Gummy.audio_stream := true;
  Gummy.mic := true;
  Gummy.asr_thread := Some false;
  Gummy.tts_thread := None
|}.


(** The windows [gummy.py] reaches by [update_text] after [apply_settings]
    re-created the buffers for a new language. *)
Inductive list_reachable : Gummy.window → Prop :=
| reach_language_changed w :
    list_reachable (Gummy.apply_settings_language_changed w)
| reach_list_update w a t w' :
    list_reachable w →
    Gummy.update_text a t w = Returns w' →
    list_reachable w'.

(** A pass of the feed loop that reads and sends a frame. *)
Definition feeds (t : Gummy.tick) : bool :=
  Gummy.stream_open t && Gummy.frame_ok t.

Definition is_send (x : Gummy.effect) : bool :=
  match x with Gummy.SendFrame => true | _ => false end.

(** The effect list holds the start of the thread of worker [w]. *)
Definition starts_thread (w : Gummy.worker) (effs : list Gummy.effect)
    : Prop :=
  Gummy.StartThread w ∈ effs.

Definition is_stop_stream (x : Gummy.effect) : bool :=
  match x with Gummy.StopStream => true | _ => false end.

Definition is_terminate (x : Gummy.effect) : bool :=
  match x with Gummy.Terminate => true | _ => false end.

(** Two plain lists, the source one not empty and the target one of 1 to 21
    lines. *)
Definition list_buffers (w : Gummy.window) : Prop :=
  ∃ lc lt,
    Gummy.chinese_text_buffer w = Gummy.PyList lc ∧ lc ≠ []
    ∧ Gummy.target_language_text_buffer w = Gummy.PyList lt
    ∧ 1 ≤ length lt ≤ 21.

(** The milliseconds slept in a list of effects. *)
Definition slept (effs : list Gummy.effect) : nat :=
  list_sum (map (λ x, match x with Gummy.Sleep ms => ms | _ => 0 end) effs).

(** * Properties *)

(** ** Lists as Python sequences *)

Section PySeq.
Context {A : Type}.
Implicit Types (l pre : list A) (x t v : A).

Lemma but_last_snoc pre t : but_last (pre ++ [t]) = pre.
Proof.
  unfold but_last. rewrite length_app. simpl.
  replace (length pre + 1 - 1) with (length pre) by lia.
  by rewrite take_app_length.
Qed.

Lemma insert_last_snoc pre t v :
  <[length (pre ++ [t]) - 1 := v]> (pre ++ [t]) = pre ++ [v].
Proof.
  rewrite length_app. simpl.
  replace (length pre + 1 - 1) with (length pre + 0) by lia.
  by rewrite insert_app_r.
Qed.

Lemma snoc_cases l : l = [] ∨ ∃ pre t, l = pre ++ [t].
Proof. destruct l using rev_ind; [by left | right; eauto]. Qed.

Lemma last_n_length n l : length (last_n n l) = min n (length l).
Proof. unfold last_n. rewrite length_drop. lia. Qed.

Lemma last_n_snoc n l x : 0 < n → ∃ pre, last_n n (l ++ [x]) = pre ++ [x].
Proof.
  intros Hn. unfold last_n. rewrite length_app. simpl.
  rewrite drop_app_le by lia. eauto.
Qed.
End PySeq.

(** The loop of [gummy_translator.py] and the joins of [gummy.py] compute
    the same two texts. *)
Lemma split_words_from acc ws :
  fold_left (fun (acc : line) w =>
    if fixed w then (acc.1 ++ text w, acc.2) else (acc.1, acc.2 ++ text w))
    ws acc
  = (acc.1 ++ fixed_text ws, acc.2 ++ unfixed_text ws).
Proof.
  revert acc. induction ws as [|w ws IH]; intros [f u]; simpl.
  - unfold fixed_text, unfixed_text. simpl. by rewrite !app_nil_r.
  - rewrite IH. unfold fixed_text, unfixed_text. simpl.
    destruct (fixed w); simpl; by rewrite <- ?app_assoc.
Qed.

Lemma split_words_texts ws :
  GummyTranslator.split_words ws = (fixed_text ws, unfixed_text ws).
Proof. unfold GummyTranslator.split_words. by rewrite split_words_from. Qed.

(** Both programs write the text of every line of the buffer, in order. *)
Lemma gummy_write_text_box_snoc pre t :
  Gummy.write_text_box (pre ++ [t])
  = Returns (concat (map line_text (pre ++ [t]))).
Proof.
  unfold Gummy.write_text_box. rewrite last_snoc, but_last_snoc.
  rewrite map_app, concat_app. simpl. rewrite app_nil_r.
  by destruct (concat (map line_text pre)).
Qed.

Lemma translator_write_text_box_snoc pre t :
  GummyTranslator.write_text_box (pre ++ [t])
  = Returns (concat (map line_text (pre ++ [t]))).
Proof.
  unfold GummyTranslator.write_text_box. rewrite last_snoc, but_last_snoc.
  rewrite map_app, concat_app. simpl. rewrite app_nil_r.
  rewrite length_app. simpl.
  destruct pre as [|p pre]; [done|].
  by replace (1 <? length (p :: pre) + 1)%nat with true
    by (symmetry; apply Nat.ltb_lt; simpl; lia).
Qed.

(** ** The reconciler: one result on one buffer *)

Lemma replaced_snoc r pre : ∃ pre' t', replaced r pre = pre' ++ [t'].
Proof.
  unfold replaced. destruct (is_sentence_end r).
  - exists (pre ++ [tail_of r]), empty_line. by rewrite <- app_assoc.
  - by exists pre, (tail_of r).
Qed.

Lemma gummy_set_last_snoc b pre t v :
  Gummy.items b = pre ++ [t] →
  Gummy.set_last b v = Returns (Gummy.with_items b (pre ++ [v])).
Proof.
  intros H. unfold Gummy.set_last. rewrite H.
  destruct (pre ++ [t]) eqn:E; [by destruct pre|].
  cbv beta iota. rewrite <- E. by rewrite insert_last_snoc.
Qed.

Lemma translator_set_last_snoc pre t v :
  GummyTranslator.set_last (pre ++ [t]) v = Returns (pre ++ [v]).
Proof.
  unfold GummyTranslator.set_last.
  destruct (pre ++ [t]) eqn:E; [by destruct pre|].
  cbv beta iota. rewrite <- E. by rewrite insert_last_snoc.
Qed.

Lemma gummy_process_list r pre t box :
  Gummy.process_result (Some r) (Gummy.PyList (pre ++ [t])) box
  = Returns (Gummy.PyList (replaced r pre),
             concat (map line_text (replaced r pre))).
Proof.
  unfold Gummy.process_result.
  rewrite (gummy_set_last_snoc _ pre t) by done. simpl.
  destruct (replaced_snoc r pre) as (pre' & t' & Hr).
  unfold replaced in *. fold (tail_of r).
  destruct (is_sentence_end r); simpl.
  - rewrite <- app_assoc. simpl. rewrite Hr.
    by rewrite gummy_write_text_box_snoc.
  - by rewrite gummy_write_text_box_snoc.
Qed.

Lemma gummy_process_deque m r pre t box :
  0 < m →
  Gummy.process_result (Some r) (Gummy.Deque m (pre ++ [t])) box
  = Returns
      (Gummy.Deque m
         (if is_sentence_end r then last_n m (replaced r pre)
          else replaced r pre),
       concat (map line_text
         (if is_sentence_end r then last_n m (replaced r pre)
          else replaced r pre))).
Proof.
  intros Hm. unfold Gummy.process_result.
  rewrite (gummy_set_last_snoc _ pre t) by done. simpl.
  unfold replaced. fold (tail_of r). destruct (is_sentence_end r); simpl.
  - rewrite <- app_assoc. simpl.
    replace (pre ++ [tail_of r; empty_line])
      with ((pre ++ [tail_of r]) ++ [empty_line]) by by rewrite <- app_assoc.
    destruct (last_n_snoc m (pre ++ [tail_of r]) empty_line Hm) as [pre' ->].
    by rewrite gummy_write_text_box_snoc.
  - by rewrite gummy_write_text_box_snoc.
Qed.

Lemma translator_process_no_stash r pre t box :
  stash r = None →
  GummyTranslator.process_result (Some r) (pre ++ [t]) box
  = Returns (replaced r pre, concat (map line_text (replaced r pre))).
Proof.
  intros Hs. unfold GummyTranslator.process_result.
  rewrite Hs, split_words_texts, translator_set_last_snoc. simpl.
  destruct (replaced_snoc r pre) as (pre' & t' & Hr).
  unfold replaced in *. fold (tail_of r).
  destruct (is_sentence_end r); simpl.
  - rewrite <- app_assoc. simpl. rewrite Hr.
    by rewrite translator_write_text_box_snoc.
  - by rewrite translator_write_text_box_snoc.
Qed.

Example ustr_code_points : ustr "他好。" = [20182; 22909; 12290]%N.
Proof. reflexivity. Qed.

(** C1.  From the buffers of a new window, the results [R1] then [R2] leave
    the target buffer [[("他好。", ""), ("", "")]] and show "他好。", in
    [gummy.py] and in [gummy_translator.py].  In general a result without a
    stash replaces the tail line by the concatenation of its fixed words and
    the concatenation of its unfixed words, appends an empty line exactly
    when it ends the sentence, and the text shown is the text of all
    lines. *)
Theorem C1_results_replace_tail_and_close :
  (w1 ← Gummy.update_text None (Some R1) Gummy.init_window;
   Gummy.update_text None (Some R2) w1)
  = Returns {| Gummy.chinese_text_buffer := Gummy.Deque 20 [empty_line];
               Gummy.target_language_text_buffer :=
                 Gummy.Deque 20 [(ustr "他好。", ustr ""); (ustr "", ustr "")];
               Gummy.chinese_text_box := ustr "";
               Gummy.target_text_box := ustr "他好。" |}
  ∧ (w1 ← GummyTranslator.update_text None (Some R1)
            GummyTranslator.init_window;
     GummyTranslator.update_text None (Some R2) w1)
    = Returns {| GummyTranslator.chinese_text_buffer := [empty_line];
                 GummyTranslator.target_language_text_buffer :=
                   [(ustr "他好。", ustr ""); (ustr "", ustr "")];
                 GummyTranslator.chinese_text_box := ustr "";
                 GummyTranslator.target_language_text_box := ustr "他好。" |}
  ∧ ∀ (r : Result) (pre : list line) (t : line) (box : pystr),
      let after :=
        pre ++ (fixed_text (words r), unfixed_text (words r))
            :: (if is_sentence_end r then [empty_line] else []) in
      Gummy.process_result (Some r) (Gummy.PyList (pre ++ [t])) box
        = Returns (Gummy.PyList after, concat (map line_text after))
      ∧ Gummy.process_result (Some r)
          (Gummy.Deque Gummy.MAX_BUFFER_SIZE (pre ++ [t])) box
        = Returns
            (Gummy.Deque Gummy.MAX_BUFFER_SIZE
               (if is_sentence_end r
                then last_n Gummy.MAX_BUFFER_SIZE after else after),
             concat (map line_text
               (if is_sentence_end r
                then last_n Gummy.MAX_BUFFER_SIZE after else after)))
      ∧ GummyTranslator.process_result
          (Some {| words := words r; is_sentence_end := is_sentence_end r;
                   stash := None |}) (pre ++ [t]) box
        = Returns (after, concat (map line_text after)).
Proof.
  split; [reflexivity|]. split; [reflexivity|].
  intros r pre t box after. split; [apply gummy_process_list|].
  split.
  - apply gummy_process_deque. unfold Gummy.MAX_BUFFER_SIZE. lia.
  - by rewrite translator_process_no_stash.
Qed.

(** ** Sequences of results *)












Lemma capped_with_items b l n : capped (Gummy.with_items b l) n = capped b n.
Proof. by destruct b. Qed.







(** ** The capacity of the buffers *)








(** Once [apply_settings] has replaced the deques by plain lists, the source
    buffer grows with every sentence and the target buffer reaches 21
    lines. *)
Lemma language_change_lifts_bound :
  ∃ w,
    gummy_updates (replicate 21 (Some R2, Some R2))
      (Gummy.apply_settings_language_changed Gummy.init_window)
    = Returns w
    ∧ Gummy.len (Gummy.chinese_text_buffer w) = 22
    ∧ Gummy.len (Gummy.target_language_text_buffer w) = 21.
Proof.
  eexists. split; [vm_compute; reflexivity|]. split; reflexivity.
Qed.

(** ** What reaches the synthesis queue *)

Lemma from_fixed_word_mono evs evs' it :
  evs ⊆ evs' → from_fixed_word evs it → from_fixed_word evs' it.
Proof.
  intros Hsub [->|(ev & tr & w & Hev & ?)]; [by left|].
  right. exists ev, tr, w. split; [by apply Hsub|done].
Qed.

Lemma gummy_put_fold iws p q :
  ∃ added,
    (fold_left Gummy.put_if_new iws (p, q)).2 = q ++ added
    ∧ Forall (λ it, ∃ iw, iw ∈ iws ∧ fixed iw.2 = true
                          ∧ it = (text iw.2, false)) added.
Proof.
  revert p q. induction iws as [|iw iws IH]; intros p q; simpl.
  - exists []. by rewrite app_nil_r.
  - unfold Gummy.put_if_new at 2. simpl.
    destruct (fixed iw.2) eqn:Hf; simpl;
      [destruct (p <=? iw.1)%nat|].
    + destruct (IH (S p) (q ++ [(text iw.2, false)])) as (added & E & HF).
      exists ((text iw.2, false) :: added). rewrite E, <- app_assoc.
      split; [done|]. constructor.
      * exists iw. by rewrite elem_of_cons; auto.
      * eapply Forall_impl; [exact HF|].
        intros it (iw' & ? & ?). exists iw'. rewrite elem_of_cons. auto.
    + destruct (IH p q) as (added & E & HF). exists added. split; [done|].
      eapply Forall_impl; [exact HF|].
      intros it (iw' & ? & ?). exists iw'. rewrite elem_of_cons. auto.
    + destruct (IH p q) as (added & E & HF). exists added. split; [done|].
      eapply Forall_impl; [exact HF|].
      intros it (iw' & ? & ?). exists iw'. rewrite elem_of_cons. auto.
Qed.

Lemma translator_put_is_gummy_put st iw :
  GummyTranslator.put_if_new st iw = Gummy.put_if_new st iw.
Proof.
  unfold GummyTranslator.put_if_new, Gummy.put_if_new.
  by destruct (fixed iw.2), (st.1 <=? iw.1)%nat.
Qed.

Lemma translator_put_fold iws st :
  fold_left GummyTranslator.put_if_new iws st
  = fold_left Gummy.put_if_new iws st.
Proof.
  revert st. induction iws as [|iw iws IH]; intros st; simpl; [done|].
  by rewrite translator_put_is_gummy_put, IH.
Qed.

Lemma enumerate_elem {A} (ws : list A) (iw : nat * A) :
  iw ∈ imap pair ws → iw.2 ∈ ws.
Proof.
  intros H. apply elem_of_lookup_imap in H as (i & w & -> & Hl).
  simpl. by eapply list_elem_of_lookup_2.
Qed.

Lemma gummy_on_event_puts a t cb s :
  ∃ added,
    Gummy.asr_fixed_words (Gummy.on_event a t cb s).2
    = Gummy.asr_fixed_words s ++ added
    ∧ Forall (from_fixed_word [(a, t)]) added.
Proof.
  unfold Gummy.on_event.
  destruct t as [tr|]; [|exists []; by rewrite app_nil_r].
  destruct (Gummy.enable_tts s); [|exists []; by rewrite app_nil_r].
  destruct (gummy_put_fold (Gummy.enumerate (words tr)) (Gummy.tg_word_ptr cb)
              (Gummy.asr_fixed_words s)) as (added & E & HF).
  assert (HF' : Forall (from_fixed_word [(a, Some tr)]) added).
  { eapply Forall_impl; [exact HF|]. intros it (iw & Hin & Hf & ->).
    right. exists (a, Some tr), tr, iw.2.
    repeat split; [by apply list_elem_of_singleton| |done].
    by apply enumerate_elem. }
  destruct (is_sentence_end tr); simpl; rewrite E.
  - exists (added ++ [([], true)]). rewrite app_assoc. split; [done|].
    apply Forall_app. split; [done|]. constructor; [by left|constructor].
  - by exists added.
Qed.

Lemma translator_on_event_puts a t cb q :
  ∃ added,
    GummyTranslator.asr_fixed_words (GummyTranslator.on_event a t cb q).2
    = GummyTranslator.asr_fixed_words q ++ added
    ∧ Forall (from_fixed_word [(a, t)]) added.
Proof.
  unfold GummyTranslator.on_event.
  destruct t as [tr|]; [|exists []; by rewrite app_nil_r].
  rewrite translator_put_fold.
  destruct (gummy_put_fold (imap pair (words tr))
              (GummyTranslator.tg_word_ptr cb)
              (GummyTranslator.asr_fixed_words q)) as (added & E & HF).
  assert (HF' : Forall (from_fixed_word [(a, Some tr)]) added).
  { eapply Forall_impl; [exact HF|]. intros it (iw & Hin & Hf & ->).
    right. exists (a, Some tr), tr, iw.2.
    repeat split; [by apply list_elem_of_singleton| |done].
    by apply enumerate_elem. }
  destruct (is_sentence_end tr); simpl; rewrite E.
  - exists (added ++ [([], true)]). rewrite app_assoc. split; [done|].
    apply Forall_app. split; [done|]. constructor; [by left|constructor].
  - by exists added.
Qed.

(** C4.  Whatever events the callback receives, every item it puts on
    [asr_fixed_words] carries the text of a word that is fixed in the
    translation of one of these events, or is the empty end-of-sentence
    marker; no text of an unfixed word is put, in [gummy.py] and in
    [gummy_translator.py]. *)
Theorem C4_only_fixed_words_are_queued
    (evs : list (option Result * option Result)) :
  (∀ cb s, ∃ added,
     Gummy.asr_fixed_words (Gummy.on_events evs cb s).2
     = Gummy.asr_fixed_words s ++ added
     ∧ Forall (from_fixed_word evs) added)
  ∧ (∀ cb q, ∃ added,
       GummyTranslator.asr_fixed_words (GummyTranslator.on_events evs cb q).2
       = GummyTranslator.asr_fixed_words q ++ added
       ∧ Forall (from_fixed_word evs) added).
Proof.
  split.
  - induction evs as [|ev evs IH] using rev_ind; intros cb s.
    + exists []. by rewrite app_nil_r.
    + unfold Gummy.on_events in *. rewrite fold_left_app. simpl.
      destruct (IH cb s) as (added & E & HF).
      destruct (gummy_on_event_puts ev.1 ev.2
                  (fold_left (λ st ev0, Gummy.on_event ev0.1 ev0.2 st.1 st.2)
                     evs (cb, s)).1
                  (fold_left (λ st ev0, Gummy.on_event ev0.1 ev0.2 st.1 st.2)
                     evs (cb, s)).2) as (added' & E' & HF').
      exists (added ++ added'). rewrite E', E, app_assoc. split; [done|].
      apply Forall_app. split.
      * eapply Forall_impl; [exact HF|]. intros it.
        apply from_fixed_word_mono. intros x Hx. apply elem_of_app. auto.
      * eapply Forall_impl; [exact HF'|]. intros it.
        apply from_fixed_word_mono. intros x Hx. apply elem_of_app. right.
        by destruct ev.
  - induction evs as [|ev evs IH] using rev_ind; intros cb q.
    + exists []. by rewrite app_nil_r.
    + unfold GummyTranslator.on_events in *. rewrite fold_left_app. simpl.
      destruct (IH cb q) as (added & E & HF).
      destruct (translator_on_event_puts ev.1 ev.2
                  (fold_left
                     (λ st ev0, GummyTranslator.on_event ev0.1 ev0.2 st.1 st.2)
                     evs (cb, q)).1
                  (fold_left
                     (λ st ev0, GummyTranslator.on_event ev0.1 ev0.2 st.1 st.2)
                     evs (cb, q)).2) as (added' & E' & HF').
      exists (added ++ added'). rewrite E', E, app_assoc. split; [done|].
      apply Forall_app. split.
      * eapply Forall_impl; [exact HF|]. intros it.
        apply from_fixed_word_mono. intros x Hx. apply elem_of_app. auto.
      * eapply Forall_impl; [exact HF'|]. intros it.
        apply from_fixed_word_mono. intros x Hx. apply elem_of_app. right.
        by destruct ev.
Qed.

(** ** The flush rule of the synthesis loop *)






(** ** The stash *)



(** ** Retrying the recognition session *)





(** ** The feed loop while the device is not open *)

(** C8, amended.  In [gummy.py] every pass of the feed loop that finds the
    device not open reads no frame, sleeps 100 milliseconds and goes on with
    the next pass: the loop is not left for that reason.  In
    [gummy_translator.py] the loop is left at the first pass that finds the
    device not open. *)
Theorem C8_feed_loop_waits_for_device (pre ticks : list Gummy.tick) :
  Forall waiting pre →
  Gummy.feed_loop (pre ++ ticks)
  = (replicate (length pre) (Gummy.Sleep 100) ++ (Gummy.feed_loop ticks).1,
     (Gummy.feed_loop ticks).2)
  ∧ (Gummy.feed_loop pre
     = (replicate (length pre) (Gummy.Sleep 100), Gummy.Looping))
  ∧ ∀ t, waiting t →
      GummyTranslator.feed_loop (t :: ticks) = ([], Gummy.Left).
Proof.
  intros Hpre. split; [|split].
  - induction Hpre as [|t pre [Hr Ho] _ IH]; simpl.
    + by destruct (Gummy.feed_loop ticks).
    + by rewrite Hr, Ho, IH.
  - induction Hpre as [|t pre [Hr Ho] _ IH]; simpl; [done|].
    by rewrite Hr, Ho, IH.
  - intros t [_ Ho]. simpl. by rewrite Ho.
Qed.

Lemma C8_witness :
  Forall waiting [closed_tick; closed_tick]
  ∧ Gummy.feed_loop [closed_tick; closed_tick]
    = ([Gummy.Sleep 100; Gummy.Sleep 100], Gummy.Looping).
Proof.
  assert (H : Forall waiting [closed_tick; closed_tick])
    by (repeat constructor).
  split; [exact H|].
  destruct (C8_feed_loop_waits_for_device [closed_tick; closed_tick] [] H)
    as (_ & E & _).
  exact E.
Defined.

(** C8 as stated fails: with the device not open, [gummy.py] sleeps 100
    milliseconds, not 10, and [gummy_translator.py] leaves the loop. *)
Lemma C8_sleep_is_100ms_or_loop_left :
  Gummy.feed_loop [closed_tick] = ([Gummy.Sleep 100], Gummy.Looping)
  ∧ Gummy.feed_loop [closed_tick] ≠ ([Gummy.Sleep 10], Gummy.Looping)
  ∧ GummyTranslator.feed_loop [closed_tick; closed_tick] = ([], Gummy.Left).
Proof. split; [reflexivity|]. split; [discriminate|reflexivity]. Qed.

(** ** Stopping the service *)

Lemma close_guarded_calls e s :
  ∃ calls, (Gummy.close_guarded e s).2
           = [Gummy.Acquire] ++ calls ++ [Gummy.Release]
           ∧ Forall device_call calls.
Proof.
  unfold Gummy.close_guarded. simpl.
  eexists (_ ++ _). rewrite <- app_assoc. split; [reflexivity|].
  apply Forall_app. unfold device_call.
  destruct (Gummy.audio_stream s), (Gummy.stop_stream_raises e),
    (Gummy.close_raises e), (Gummy.mic s), (Gummy.terminate_raises e);
    (split; cbn;
     repeat match goal with
            | |- Forall _ [] => constructor
            | |- Forall _ (_ :: _) => constructor; [auto 6|]
            | |- True => exact I
            end).
Qed.



(** ** Changing the languages *)

Lemma supported_iff lang :
  Gummy.supported lang = true ↔ lang ∈ supported_codes.
Proof.
  unfold Gummy.supported, Gummy.SUPPORTED_LANGUAGES.
  rewrite bool_decide_eq_true, <- elem_of_dom, dom_list_to_map_L.
  by rewrite elem_of_list_to_set.
Qed.

Lemma stop_keeps_languages e s :
  Gummy.source_language (Gummy.stop e s).1 = Gummy.source_language s
  ∧ Gummy.target_language (Gummy.stop e s).1 = Gummy.target_language s
  ∧ Gummy.config (Gummy.stop e s).1 = Gummy.config s.
Proof. done. Qed.

Lemma start_keeps_languages e s :
  Gummy.source_language (Gummy.start e s).1 = Gummy.source_language s
  ∧ Gummy.target_language (Gummy.start e s).1 = Gummy.target_language s
  ∧ Gummy.config (Gummy.start e s).1 = Gummy.config s.
Proof.
  unfold Gummy.start.
  repeat match goal with
         | |- context [if ?c then _ else _] => destruct c
         end; done.
Qed.

(** C10.  [set_languages] returns [True] exactly when both codes are keys
    of [SUPPORTED_LANGUAGES]; then the service holds the two codes and so
    does the configuration.  Otherwise it returns [False] and the service,
    its languages, its configuration and its running state are unchanged,
    and nothing is done. *)
Theorem C10_set_languages_guard (e : Gummy.env) (source_lang target_lang : pystr)
    (s : Gummy.service) :
  let r := Gummy.set_languages e source_lang target_lang s in
  (r.1.1 = true ↔ source_lang ∈ supported_codes ∧ target_lang ∈ supported_codes)
  ∧ (r.1.1 = true →
       Gummy.source_language r.1.2 = source_lang
       ∧ Gummy.target_language r.1.2 = target_lang
       ∧ Gummy.config r.1.2 !! ("Language", "source_language")
         = Some source_lang
       ∧ Gummy.config r.1.2 !! ("Language", "target_language")
         = Some target_lang)
  ∧ (r.1.1 = false → r.1.2 = s ∧ r.2 = []).
Proof.
  intros r. subst r. unfold Gummy.set_languages.
  rewrite <- !supported_iff, <- andb_true_iff.
  destruct (Gummy.supported source_lang && Gummy.supported target_lang);
    [|by repeat split].
  set (c := Gummy.config_set _ _ _ target_lang).
  set (s1 := Gummy.set_languages_fields source_lang target_lang c s).
  assert (Hc : c !! ("Language", "source_language") = Some source_lang
               ∧ c !! ("Language", "target_language") = Some target_lang).
  { subst c. unfold Gummy.config_set. split.
    - rewrite lookup_insert_ne by done. apply lookup_insert_eq.
    - apply lookup_insert_eq. }
  destruct (Gummy.is_running s1); cbn [fst snd].
  - split; [done|]. split; [|done]. intros _.
    destruct (start_keeps_languages e (Gummy.stop e s1).1) as (-> & -> & ->).
    destruct (stop_keeps_languages e s1) as (-> & -> & ->).
    by destruct Hc.
  - split; [done|]. split; [|done]. intros _. by destruct Hc.
Qed.

Example set_languages_accepts :
  (Gummy.set_languages calm (ustr "ja-JP") (ustr "fr-FR") (service_with [])).1.1
  = true.
Proof. by vm_compute. Qed.

Example set_languages_rejects :
  Gummy.set_languages calm (ustr "ja-JP") (ustr "fr") (service_with [])
  = (false, service_with [], []).
Proof. by vm_compute. Qed.

(** * Further properties of the code *)

(** ** Draining the queue of results *)

Lemma process_queue_safely_eq n s :
  Gummy.process_queue_safely n s
  = (take n (Gummy.wx_text_queue s),
     Gummy.set_queues (drop n (Gummy.wx_text_queue s))
       (Gummy.asr_fixed_words s) s).
Proof.
  revert s. induction n as [|n IH]; intros []; simpl; [done|].
  destruct wx_text_queue as [|item rest]; simpl; [done|].
  by rewrite IH.
Qed.

(** X1.  [process_queue_safely(max_items)] returns the first [max_items]
    items of [wx_text_queue] in their order, or all of them when there are
    fewer, and leaves the others in the queue; no item is lost and nothing
    else of the service changes. *)
Theorem X1_process_queue_safely_takes_prefix (max_items : nat)
    (s : Gummy.service) :
  let r := Gummy.process_queue_safely max_items s in
  r.1 = take max_items (Gummy.wx_text_queue s)
  ∧ r.2 = Gummy.set_queues (drop max_items (Gummy.wx_text_queue s))
            (Gummy.asr_fixed_words s) s
  ∧ length r.1 = min max_items (length (Gummy.wx_text_queue s))
  ∧ r.1 ++ Gummy.wx_text_queue r.2 = Gummy.wx_text_queue s.
Proof.
  intros r. subst r. rewrite process_queue_safely_eq. cbn [fst snd].
  repeat split.
  - rewrite length_take. lia.
  - destruct s. simpl. apply take_drop.
Qed.

Lemma gummy_on_event_wx a t cb s :
  Gummy.wx_text_queue (Gummy.on_event a t cb s).2
  = Gummy.wx_text_queue s ++ [(a, t)].
Proof.
  unfold Gummy.on_event.
  destruct t as [tr|]; [|done].
  destruct (Gummy.enable_tts s); [|done].
  by destruct (is_sentence_end tr).
Qed.

Lemma gummy_on_events_wx evs cb s :
  Gummy.wx_text_queue (Gummy.on_events evs cb s).2
  = Gummy.wx_text_queue s ++ evs.
Proof.
  induction evs as [|ev evs IH] using rev_ind.
  - by rewrite app_nil_r.
  - unfold Gummy.on_events in *. rewrite fold_left_app. simpl.
    rewrite gummy_on_event_wx, IH, <- app_assoc. by destruct ev.
Qed.

(** X2.  Every event the callback receives is put on [wx_text_queue],
    whether synthesis is enabled or not, and the window's timer gets the
    events back in the order of their arrival, ten at a time. *)
Theorem X2_events_are_drained_in_order
    (evs : list (option Result * option Result)) (cb : Gummy.callback)
    (s : Gummy.service) :
  let s' := (Gummy.on_events evs cb s).2 in
  Gummy.wx_text_queue s' = Gummy.wx_text_queue s ++ evs
  ∧ (Gummy.process_queue_safely 10 s').1
    = take 10 (Gummy.wx_text_queue s ++ evs)
  ∧ Gummy.wx_text_queue (Gummy.process_queue_safely 10 s').2
    = drop 10 (Gummy.wx_text_queue s ++ evs).
Proof.
  intros s'. subst s'.
  rewrite process_queue_safely_eq, gummy_on_events_wx. cbn [fst snd].
  by destruct (Gummy.on_events evs cb s).2.
Qed.

(** ** The words put on the synthesis queue *)

Lemma put_fold_skip k ws p q :
  (∀ i w, ws !! i = Some w → fixed w = true → k + i < p) →
  fold_left Gummy.put_if_new (imap (λ i, pair (k + i)) ws) (p, q) = (p, q).
Proof.
  revert k. induction ws as [|w ws IH]; intros k H; [done|].
  rewrite imap_cons. cbn [fold_left].
  assert (Gummy.put_if_new (p, q) (k + 0, w) = (p, q)) as ->.
  { unfold Gummy.put_if_new. cbn [fst snd].
    destruct (fixed w) eqn:Hf; [|done].
    specialize (H 0 w eq_refl Hf).
    by replace (p <=? k + 0)%nat with false
      by (symmetry; apply Nat.leb_gt; lia). }
  rewrite (imap_ext _ (λ i, pair (S k + i)))
    by (intros; simpl; f_equal; lia).
  apply IH. intros i w' Hl Hf. specialize (H (S i) w' Hl Hf). lia.
Qed.

Lemma put_fold_all k ws p q :
  Forall (λ w, fixed w = true) ws → p ≤ k →
  fold_left Gummy.put_if_new (imap (λ i, pair (k + i)) ws) (p, q)
  = (p + length ws, q ++ map item_of ws).
Proof.
  intros Hws. revert k p q.
  induction Hws as [|w ws Hf _ IH]; intros k p q Hp.
  - simpl. by rewrite Nat.add_0_r, app_nil_r.
  - rewrite imap_cons. cbn [fold_left].
    assert (Gummy.put_if_new (p, q) (k + 0, w)
            = (S p, q ++ [(text w, false)])) as ->.
    { unfold Gummy.put_if_new. cbn [fst snd]. rewrite Hf.
      by replace (p <=? k + 0)%nat with true
        by (symmetry; apply Nat.leb_le; lia). }
    rewrite (imap_ext _ (λ i, pair (S k + i)))
      by (intros; simpl; f_equal; lia).
    rewrite IH by lia. simpl. rewrite <- app_assoc. f_equal. lia.
Qed.

(** The loop over a result whose fixed words come first: the fixed words
    from the pointer on are put, and the pointer moves to their end. *)
Lemma put_fold_prefix fx unfixed p q :
  Forall (λ w, fixed w = true) fx →
  Forall (λ w, fixed w = false) unfixed →
  p ≤ length fx →
  fold_left Gummy.put_if_new (Gummy.enumerate (fx ++ unfixed)) (p, q)
  = (length fx, q ++ map item_of (drop p fx)).
Proof.
  intros Hfx Hun Hp. unfold Gummy.enumerate.
  rewrite <- (take_drop p fx) at 1.
  rewrite !imap_app, !fold_left_app.
  rewrite (imap_ext pair (λ i, pair (0 + i)) (take p fx)) by done.
  rewrite put_fold_skip.
  2:{ intros i w Hl _. apply lookup_lt_Some in Hl.
      rewrite length_take in Hl. lia. }
  rewrite (imap_ext (λ n, pair (length (take p fx) + n))
             (λ i, pair (p + i)) (drop p fx)).
  2:{ intros i w _. simpl. f_equal. rewrite length_take. lia. }
  rewrite put_fold_all; [|by apply Forall_drop|done].
  rewrite length_drop.
  rewrite (imap_ext (λ n, pair (length (take p fx ++ drop p fx) + n))
             (λ i, pair (length fx + i)) unfixed).
  2:{ intros i w _. simpl. f_equal. by rewrite take_drop. }
  replace (p + (length fx - p)) with (length fx) by lia.
  apply put_fold_skip. intros i w Hl Hf.
  eapply Forall_lookup_1 in Hun; [|exact Hl]. simpl in Hun. congruence.
Qed.

Lemma gummy_on_event_prefix a tr cb s fx unfixed :
  Gummy.enable_tts s = true →
  words tr = fx ++ unfixed →
  Forall (λ w, fixed w = true) fx →
  Forall (λ w, fixed w = false) unfixed →
  Gummy.tg_word_ptr cb ≤ length fx →
  Gummy.asr_fixed_words (Gummy.on_event a (Some tr) cb s).2
  = Gummy.asr_fixed_words s
    ++ map item_of (drop (Gummy.tg_word_ptr cb) fx)
    ++ (if is_sentence_end tr then [([], true)] else [])
  ∧ Gummy.tg_word_ptr (Gummy.on_event a (Some tr) cb s).1
    = (if is_sentence_end tr then 0 else length fx)
  ∧ Gummy.sentence_ptr (Gummy.on_event a (Some tr) cb s).1
    = Gummy.sentence_ptr cb + (if is_sentence_end tr then 1 else 0).
Proof.
  intros Htts Hw Hfx Hun Hp. unfold Gummy.on_event.
  rewrite Htts, Hw, put_fold_prefix by done.
  destruct (is_sentence_end tr); cbn [fst snd Gummy.asr_fixed_words
    Gummy.set_queues Gummy.tg_word_ptr Gummy.sentence_ptr].
  - rewrite <- app_assoc. repeat split; lia.
  - rewrite app_nil_r. repeat split; lia.
Qed.

(** X3.  When the fixed words of a translation come first, [on_event] puts
    on [asr_fixed_words] exactly the fixed words that lie at or after
    [tg_word_ptr], in order, and moves the pointer to the end of the fixed
    words; a sentence end adds the marker [['', True]], resets the pointer
    and counts the sentence.  Words fixed before are not put again. *)
Theorem X3_on_event_puts_new_fixed_words
    (a : option Result) (tr : Result) (cb : Gummy.callback)
    (s : Gummy.service) (fx unfixed : list Word) :
  Gummy.enable_tts s = true →
  words tr = fx ++ unfixed →
  Forall (λ w, fixed w = true) fx →
  Forall (λ w, fixed w = false) unfixed →
  Gummy.tg_word_ptr cb ≤ length fx →
  let r := Gummy.on_event a (Some tr) cb s in
  Gummy.asr_fixed_words r.2
  = Gummy.asr_fixed_words s
    ++ map item_of (drop (Gummy.tg_word_ptr cb) fx)
    ++ (if is_sentence_end tr then [([], true)] else [])
  ∧ Gummy.tg_word_ptr r.1 = (if is_sentence_end tr then 0 else length fx)
  ∧ Gummy.sentence_ptr r.1
    = Gummy.sentence_ptr cb + (if is_sentence_end tr then 1 else 0).
Proof.
  intros Htts Hw Hfx Hun Hp r. subst r.
  by apply (gummy_on_event_prefix a tr cb s fx unfixed).
Qed.

Lemma X3_witness :
  Gummy.enable_tts (service_with []) = true
  ∧ Gummy.asr_fixed_words
      (Gummy.on_event None (Some R2)
         {| Gummy.sentence_ptr := 0; Gummy.zh_word_ptr := 0;
            Gummy.tg_word_ptr := 2 |} (service_with [])).2
    = [(ustr "。", false); ([], true)].
Proof.
  split; [reflexivity|].
  destruct (X3_on_event_puts_new_fixed_words None R2
              {| Gummy.sentence_ptr := 0; Gummy.zh_word_ptr := 0;
                 Gummy.tg_word_ptr := 2 |} (service_with [])
              (words R2) []) as (E & _).
  - reflexivity.
  - by rewrite app_nil_r.
  - repeat constructor.
  - constructor.
  - simpl. lia.
  - exact E.
Defined.

Lemma grows_prefix cur rs final :
  grows cur rs final → ∃ rest, final = cur ++ rest.
Proof.
  induction 1 as [cur|cur r rs more unfixed final _ _ _ _ _ [rest ->]].
  - exists []. by rewrite app_nil_r.
  - exists (more ++ rest). by rewrite app_assoc.
Qed.

Lemma gummy_on_events_cons ev evs cb s :
  Gummy.on_events (ev :: evs) cb s
  = Gummy.on_events evs (Gummy.on_event ev.1 ev.2 cb s).1
      (Gummy.on_event ev.1 ev.2 cb s).2.
Proof.
  unfold Gummy.on_events. simpl.
  by destruct (Gummy.on_event ev.1 ev.2 cb s).
Qed.

Lemma gummy_on_event_keeps_tts a t cb s :
  Gummy.enable_tts (Gummy.on_event a t cb s).2 = Gummy.enable_tts s.
Proof.
  unfold Gummy.on_event. destruct t as [tr|]; [|done].
  destruct (Gummy.enable_tts s) eqn:E; [|done].
  by destruct (is_sentence_end tr).
Qed.

(** The results of an unfinished sentence put the words fixed since the
    pointer, each once. *)
Lemma gummy_on_events_grow (evs : list (option Result * Result)) cur final
    cb s :
  grows cur (map snd evs) final →
  Gummy.enable_tts s = true →
  Gummy.tg_word_ptr cb = length cur →
  let r := Gummy.on_events (map (λ ev, (ev.1, Some ev.2)) evs) cb s in
  Gummy.asr_fixed_words r.2
  = Gummy.asr_fixed_words s ++ map item_of (drop (length cur) final)
  ∧ Gummy.tg_word_ptr r.1 = length final
  ∧ Gummy.sentence_ptr r.1 = Gummy.sentence_ptr cb
  ∧ Gummy.enable_tts r.2 = true.
Proof.
  revert cur cb s. induction evs as [|ev evs IH]; intros cur cb s Hg Htts Hp.
  - inversion Hg; subst. cbn. rewrite drop_all, app_nil_r. by rewrite Hp.
  - inversion Hg as [|? ? ? more unfixed ? Hw Hfx Hun Hse Hg']; subst.
    cbn [map]. rewrite gummy_on_events_cons. cbn [fst snd].
    destruct (gummy_on_event_prefix ev.1 ev.2 cb s (cur ++ more) unfixed
                Htts Hw Hfx Hun)
      as (Eq & Eptr & Esp); [rewrite Hp, length_app; lia|].
    rewrite Hse in Eq, Eptr, Esp.
    destruct (IH (cur ++ more)
                (Gummy.on_event ev.1 (Some ev.2) cb s).1
                (Gummy.on_event ev.1 (Some ev.2) cb s).2 Hg')
      as (Eq' & Eptr' & Esp' & Etts');
      [by rewrite gummy_on_event_keeps_tts|done|].
    cbv zeta. rewrite Eq', Eptr', Esp', Etts', Eq, Esp, Hp.
    destruct (grows_prefix _ _ _ Hg') as [rest ->].
    rewrite app_nil_r, <- !app_assoc, !drop_app_length.
    rewrite (app_assoc cur more rest), drop_app_length.
    rewrite map_app. repeat split; lia.
Qed.

Lemma gummy_on_events_snoc evs ev cb s :
  Gummy.on_events (evs ++ [ev]) cb s
  = Gummy.on_event ev.1 ev.2 (Gummy.on_events evs cb s).1
      (Gummy.on_events evs cb s).2.
Proof. unfold Gummy.on_events. by rewrite fold_left_app. Qed.

Lemma fixed_text_prefix fx unfixed :
  Forall (λ w, fixed w = true) fx →
  Forall (λ w, fixed w = false) unfixed →
  fixed_text (fx ++ unfixed) = concat (map text fx).
Proof.
  intros Hfx Hun. unfold fixed_text. rewrite List.filter_app.
  assert (List.filter fixed fx = fx) as ->.
  { induction Hfx as [|w ws Hw _ IH]; [done|]. simpl. by rewrite Hw, IH. }
  assert (List.filter fixed unfixed = []) as ->.
  { induction Hun as [|w ws Hw _ IH]; [done|]. simpl. by rewrite Hw. }
  by rewrite app_nil_r.
Qed.

(** X4.  Over the results of one sentence in which the fixed words come
    first and are never revised, from a pointer at 0, the callback puts
    every fixed word of the final result on [asr_fixed_words] exactly once
    and in order, followed by the end-of-sentence marker; the texts put
    spell the fixed text that the window shows for the closed line, and the
    pointer is back at 0 for the next sentence. *)
Theorem X4_sentence_queues_each_fixed_word_once
    (evs : list (option Result * Result)) (a : option Result)
    (r_end : Result) (final more unfixed : list Word)
    (cb : Gummy.callback) (s : Gummy.service) :
  grows [] (map snd evs) final →
  words r_end = (final ++ more) ++ unfixed →
  Forall (λ w, fixed w = true) (final ++ more) →
  Forall (λ w, fixed w = false) unfixed →
  is_sentence_end r_end = true →
  Gummy.enable_tts s = true →
  Gummy.tg_word_ptr cb = 0 →
  let r := Gummy.on_events
             (map (λ ev, (ev.1, Some ev.2)) evs ++ [(a, Some r_end)]) cb s in
  let put := map item_of (final ++ more) ++ [([], true)] in
  Gummy.asr_fixed_words r.2 = Gummy.asr_fixed_words s ++ put
  ∧ concat (map fst put) = fixed_text (words r_end)
  ∧ Gummy.tg_word_ptr r.1 = 0
  ∧ Gummy.sentence_ptr r.1 = Gummy.sentence_ptr cb + 1.
Proof.
  intros Hg Hw Hfx Hun Hse Htts Hp r put. subst r put.
  rewrite gummy_on_events_snoc. cbn [fst snd].
  destruct (gummy_on_events_grow evs [] final cb s Hg Htts Hp)
    as (Eq & Eptr & Esp & Etts).
  destruct (gummy_on_event_prefix a r_end
              (Gummy.on_events (map (λ ev, (ev.1, Some ev.2)) evs) cb s).1
              (Gummy.on_events (map (λ ev, (ev.1, Some ev.2)) evs) cb s).2
              (final ++ more) unfixed Etts Hw Hfx Hun)
    as (Eq' & Eptr' & Esp'); [rewrite Eptr, length_app; lia|].
  rewrite Hse in Eq', Eptr', Esp'.
  rewrite Eq', Eptr', Esp', Eq, Eptr, Esp. cbn [drop length].
  rewrite drop_app_length, map_app, <- !app_assoc.
  repeat split.
  rewrite Hw, fixed_text_prefix by done.
  rewrite !map_app, !concat_app, !map_map. simpl.
  by rewrite app_nil_r.
Qed.

Lemma X4_witness :
  grows [] (map snd [(@None Result, R1)]) (words R1)
  ∧ Gummy.asr_fixed_words
      (Gummy.on_events [(None, Some R1); (None, Some R2)]
         Gummy.init_callback (service_with [])).2
    = [(ustr "他", false); (ustr "好", false); (ustr "。", false);
       ([], true)].
Proof.
  assert (Hg : grows [] (map snd [(@None Result, R1)]) (words R1)).
  { apply (grows_cons [] R1 [] (words R1) [] (words R1)).
    - by rewrite app_nil_r.
    - repeat constructor.
    - constructor.
    - reflexivity.
    - apply grows_nil. }
  split; [exact Hg|].
  destruct (X4_sentence_queues_each_fixed_word_once [(@None Result, R1)] None R2
              (words R1) [ {| text := ustr "。"; fixed := true |} ] []
              Gummy.init_callback (service_with []) Hg)
    as (E & _).
  - reflexivity.
  - repeat constructor.
  - constructor.
  - reflexivity.
  - reflexivity.
  - reflexivity.
  - exact E.
Defined.

(** ** The synthesis loop over several rounds *)







(** ** Playing the response in blocks *)





(** ** Starting and stopping *)

(** Membership in an explicit list of effects. *)
Ltac effect_mem :=
  rewrite ?elem_of_cons, ?elem_of_nil;
  intuition (try discriminate; try congruence; auto).

(** X8.  On a running service, and on a service without an API key,
    [start] starts no thread and leaves the service unchanged; it posts the
    missing-key status whenever the key is empty.  Otherwise it starts the
    recognition thread; the synthesis thread is started only when synthesis
    is enabled and the configuration holds a non-empty [tts_api_key].  The
    service is running afterwards exactly when no thread start raised, and
    a failed start is posted. *)
Theorem X8_start_guards (e : Gummy.env) (s : Gummy.service) :
  let r := Gummy.start e s in
  (Gummy.is_running s = true ∨ Gummy.api_key s = [] →
     r.1 = s
     ∧ r.2 = (if bool_decide (Gummy.api_key s = [])
              then [Gummy.PostStatus Gummy.NoApiKey] else []))
  ∧ (starts_thread Gummy.TtsThread r.2 →
     Gummy.enable_tts s = true
     ∧ Gummy.config_get (Gummy.config s) "API" "tts_api_key" [] ≠ [])
  ∧ (Gummy.is_running s = false → Gummy.api_key s ≠ [] →
     starts_thread Gummy.AsrThread r.2
     ∧ (Gummy.is_running r.1 = true
        ↔ Gummy.thread_start_raises e Gummy.AsrThread = false
          ∧ (starts_thread Gummy.TtsThread r.2 →
             Gummy.thread_start_raises e Gummy.TtsThread = false))
     ∧ (Gummy.is_running r.1 = false →
        Gummy.PostStatus Gummy.StartFailed ∈ r.2)).
Proof.
  intros r. subst r. unfold Gummy.start, starts_thread.
  cbn [Gummy.enable_tts Gummy.set_threads Gummy.set_is_running Gummy.config].
  destruct (Gummy.is_running s) eqn:Hrun;
    destruct (bool_decide (Gummy.api_key s = [])) eqn:Hk;
    [apply bool_decide_eq_true in Hk | apply bool_decide_eq_false in Hk
    |apply bool_decide_eq_true in Hk | apply bool_decide_eq_false in Hk];
    cbn [orb fst snd].
  1-3: (split; [done|]); (split; [effect_mem|]); intros; congruence.
  split; [intros [?|?]; congruence|].
  destruct (Gummy.thread_start_raises e Gummy.AsrThread) eqn:Ha;
    destruct (Gummy.enable_tts s) eqn:Htts;
    destruct (bool_decide
                (Gummy.config_get (Gummy.config s) "API" "tts_api_key" [] = []))
      eqn:Hc;
    [apply bool_decide_eq_true in Hc | apply bool_decide_eq_false in Hc
    |apply bool_decide_eq_true in Hc | apply bool_decide_eq_false in Hc
    |apply bool_decide_eq_true in Hc | apply bool_decide_eq_false in Hc
    |apply bool_decide_eq_true in Hc | apply bool_decide_eq_false in Hc];
    destruct (Gummy.thread_start_raises e Gummy.TtsThread) eqn:Ht;
    cbn [fst snd Gummy.is_running Gummy.set_is_running Gummy.set_threads];
    (split; [effect_mem|]); intros _ _;
    (split; [effect_mem|]); (split; [|effect_mem]);
    (split; [intros ?; split; [congruence|effect_mem]|]);
    intros [? H]; try congruence;
    exfalso; (assert (true = false); [apply H; effect_mem|congruence]).
Qed.

Lemma stop_again e s :
  Gummy.stop e (Gummy.stop e s).1
  = ((Gummy.stop e s).1,
     [Gummy.PostStatus Gummy.ServiceStopped;
      Gummy.Acquire; Gummy.Release; Gummy.Acquire; Gummy.Release]).
Proof. by destruct s. Qed.

(** X9.  [stop] calls [stop_stream] exactly when the service held a stream
    and [terminate] exactly when it held a PyAudio object, each at most
    once: the second closing block of [stop] never finds anything to close.
    A second [stop] touches no device and leaves the service as the first
    left it. *)
Theorem X9_stop_closes_each_handle_once (e : Gummy.env) (s : Gummy.service) :
  let r := Gummy.stop e s in
  (Gummy.StopStream ∈ r.2 ↔ Gummy.audio_stream s = true)
  ∧ (Gummy.Terminate ∈ r.2 ↔ Gummy.mic s = true)
  ∧ length (List.filter is_stop_stream r.2) ≤ 1
  ∧ length (List.filter is_terminate r.2) ≤ 1
  ∧ Gummy.stop e r.1
    = (r.1, [Gummy.PostStatus Gummy.ServiceStopped;
             Gummy.Acquire; Gummy.Release; Gummy.Acquire; Gummy.Release]).
Proof.
  intros r. subst r. split; [|split; [|split; [|split; [|apply stop_again]]]];
    unfold Gummy.stop, Gummy.close_audio_resources, Gummy.close_guarded,
      Gummy.close_again;
    cbn [fst snd Gummy.audio_stream Gummy.mic Gummy.set_audio
         Gummy.set_is_running];
    destruct (Gummy.audio_stream s), (Gummy.mic s),
      (Gummy.stop_stream_raises e), (Gummy.close_raises e),
      (Gummy.terminate_raises e);
    cbn; try lia; effect_mem.
Qed.

(** ** The periodic check and the restarts *)

Lemma check_restarts e s :
  Gummy.is_running s = true →
  Gummy.asr_thread s = Some false
  ∨ (Gummy.enable_tts s = true ∧ Gummy.tts_thread s = Some false) →
  Gummy.check_and_restart e s
  = ((Gummy.start e (Gummy.stop e s).1).1,
     Gummy.WarnInterrupted
     :: map Gummy.Restart
          ((Gummy.stop e s).2 ++ [Gummy.Sleep 1000]
           ++ (Gummy.start e (Gummy.stop e s).1).2)).
Proof.
  intros Hrun Hdead. unfold Gummy.check_and_restart. rewrite Hrun.
  cbn [negb].
  destruct (Gummy.asr_thread s) as [[|]|] eqn:Ha;
    destruct (Gummy.tts_thread s) as [[|]|] eqn:Ht;
    destruct (Gummy.enable_tts s) eqn:Htts;
    cbn [andb negb]; try reflexivity;
    destruct Hdead as [?|[? ?]]; congruence.
Qed.

Lemma check_idle e s :
  ¬ (Gummy.is_running s = true
     ∧ (Gummy.asr_thread s = Some false
        ∨ (Gummy.enable_tts s = true ∧ Gummy.tts_thread s = Some false))) →
  Gummy.check_and_restart e s = (s, []).
Proof.
  intros Hn. unfold Gummy.check_and_restart.
  destruct (Gummy.is_running s) eqn:Hrun; cbn [negb]; [|done].
  destruct (Gummy.asr_thread s) as [[|]|] eqn:Ha;
    destruct (Gummy.tts_thread s) as [[|]|] eqn:Ht;
    destruct (Gummy.enable_tts s) eqn:Htts;
    cbn [andb negb]; try reflexivity; exfalso; apply Hn; auto.
Qed.

(** X10.  [check_and_restart] restarts the service exactly when it is
    running and the recognition thread is dead, or synthesis is enabled and
    the synthesis thread is dead; a thread attribute that does not exist
    counts as alive.  In every other case it does nothing. *)
Theorem X10_check_restarts_only_dead_workers (e : Gummy.env)
    (s : Gummy.service) :
  let r := Gummy.check_and_restart e s in
  let dead :=
    Gummy.is_running s = true
    ∧ (Gummy.asr_thread s = Some false
       ∨ (Gummy.enable_tts s = true ∧ Gummy.tts_thread s = Some false)) in
  (dead →
     r = ((Gummy.start e (Gummy.stop e s).1).1,
          Gummy.WarnInterrupted
          :: map Gummy.Restart
               ((Gummy.stop e s).2 ++ [Gummy.Sleep 1000]
                ++ (Gummy.start e (Gummy.stop e s).1).2)))
  ∧ (¬ dead → r = (s, [])).
Proof.
  intros r dead. subst r dead. split.
  - intros [Hrun Hdead]. by apply check_restarts.
  - apply check_idle.
Qed.

(** [start] after [stop] on a service with a key, when synthesis is
    disabled and the thread starts. *)
Lemma restart_without_tts e s :
  Gummy.enable_tts s = false →
  Gummy.api_key s ≠ [] →
  Gummy.thread_start_raises e Gummy.AsrThread = false →
  Gummy.start e (Gummy.stop e s).1
  = (Gummy.set_threads (Some true) (Gummy.tts_thread s)
       (Gummy.set_is_running true
          (Gummy.set_audio false false (Gummy.set_is_running false s))),
     [Gummy.PostStatus Gummy.ServiceStarted;
      Gummy.StartThread Gummy.AsrThread]).
Proof.
  intros Htts Hk Hstart. destruct s. simpl in Htts, Hk. subst.
  unfold Gummy.start.
  cbn [Gummy.stop fst snd Gummy.is_running Gummy.api_key Gummy.enable_tts
       Gummy.close_audio_resources Gummy.close_guarded Gummy.close_again
       Gummy.set_audio Gummy.set_is_running Gummy.set_threads orb
       Gummy.tts_thread].
  by rewrite (bool_decide_eq_false_2 _ Hk), Hstart.
Qed.

(** X11.  When the recognition thread of a running service has died and
    synthesis is disabled, one check brings the service back: with an API
    key and a thread start that does not raise it is running again with a
    live recognition thread, the device handles cleared in between, and the
    next check finds nothing to do. *)
Theorem X11_check_recovers_dead_recognition (e : Gummy.env)
    (s : Gummy.service) :
  Gummy.is_running s = true →
  Gummy.asr_thread s = Some false →
  Gummy.enable_tts s = false →
  Gummy.api_key s ≠ [] →
  Gummy.thread_start_raises e Gummy.AsrThread = false →
  let r := Gummy.check_and_restart e s in
  Gummy.is_running r.1 = true
  ∧ Gummy.asr_thread r.1 = Some true
  ∧ Gummy.audio_stream r.1 = false ∧ Gummy.mic r.1 = false
  ∧ Gummy.Restart (Gummy.PostStatus Gummy.ServiceStopped) ∈ r.2
  ∧ Gummy.Restart (Gummy.StartThread Gummy.AsrThread) ∈ r.2
  ∧ Gummy.check_and_restart e r.1 = (r.1, []).
Proof.
  intros Hrun Ha Htts Hk Hstart r. subst r.
  rewrite check_restarts by auto.
  rewrite restart_without_tts by done. cbn [fst snd].
  split; [done|]. split; [done|]. split; [done|]. split; [done|].
  split; [|split].
  - apply elem_of_cons. right. apply list_elem_of_In, in_map, list_elem_of_In.
    apply elem_of_app. left. apply elem_of_cons. by left.
  - apply elem_of_cons. right. apply list_elem_of_In, in_map, list_elem_of_In.
    rewrite !elem_of_app, !elem_of_cons. auto.
  - apply check_idle. intros [_ [H|[H _]]]; [done|].
    cbn in H. congruence.
Qed.

Lemma X11_witness :
  Gummy.is_running dead_recognition = true
  ∧ Gummy.asr_thread dead_recognition = Some false
  ∧ Gummy.is_running (Gummy.check_and_restart calm dead_recognition).1 = true.
Proof.
  split; [reflexivity|]. split; [reflexivity|].
  assert (Hk : Gummy.api_key dead_recognition ≠ []) by discriminate.
  destruct (X11_check_recovers_dead_recognition calm dead_recognition
              eq_refl eq_refl eq_refl Hk eq_refl) as (E & _).
  exact E.
Defined.

Lemma start_runs e s :
  Gummy.is_running s = false →
  Gummy.api_key s ≠ [] →
  (∀ w, Gummy.thread_start_raises e w = false) →
  Gummy.is_running (Gummy.start e s).1 = true
  ∧ Gummy.asr_thread (Gummy.start e s).1 = Some true
  ∧ Gummy.audio_stream (Gummy.start e s).1 = Gummy.audio_stream s
  ∧ Gummy.mic (Gummy.start e s).1 = Gummy.mic s
  ∧ Gummy.StartThread Gummy.AsrThread ∈ (Gummy.start e s).2.
Proof.
  intros Hrun Hk Hstart. unfold Gummy.start.
  rewrite Hrun, (bool_decide_eq_false_2 _ Hk), !Hstart. cbn [orb].
  cbn [Gummy.enable_tts Gummy.set_threads Gummy.set_is_running Gummy.config].
  destruct (Gummy.enable_tts s);
    [destruct (bool_decide
                 (Gummy.config_get (Gummy.config s) "API" "tts_api_key" []
                  = []))|];
    cbn [fst snd]; (repeat split; try done); effect_mem.
Qed.

(** X12.  A change to two supported languages on a running service stops
    it, sleeps half a second and starts it again: with an API key and thread
    starts that do not raise, the service is running afterwards with the new
    languages, a new recognition thread and cleared device handles, and the
    stop status is posted before the thread is started.  On a stopped
    service the change does nothing else and starts nothing. *)
Theorem X12_language_change_restarts_running_service (e : Gummy.env)
    (source_lang target_lang : pystr) (s : Gummy.service) :
  Gummy.supported source_lang = true →
  Gummy.supported target_lang = true →
  let r := Gummy.set_languages e source_lang target_lang s in
  (Gummy.is_running s = false →
     r.2 = [] ∧ Gummy.is_running r.1.2 = false
     ∧ Gummy.asr_thread r.1.2 = Gummy.asr_thread s)
  ∧ (Gummy.is_running s = true →
     Gummy.api_key s ≠ [] →
     (∀ w, Gummy.thread_start_raises e w = false) →
     Gummy.is_running r.1.2 = true
     ∧ Gummy.source_language r.1.2 = source_lang
     ∧ Gummy.target_language r.1.2 = target_lang
     ∧ Gummy.asr_thread r.1.2 = Some true
     ∧ Gummy.audio_stream r.1.2 = false ∧ Gummy.mic r.1.2 = false
     ∧ ∃ closing starting,
         r.2 = Gummy.PostStatus Gummy.ServiceStopped :: closing
               ++ [Gummy.Sleep 500] ++ starting
         ∧ Gummy.StartThread Gummy.AsrThread ∈ starting
         ∧ Gummy.StartThread Gummy.AsrThread ∉ closing).
Proof.
  intros Hs Ht r. subst r. unfold Gummy.set_languages. rewrite Hs, Ht.
  cbn [andb].
  set (c := Gummy.config_set _ _ _ target_lang).
  set (s1 := Gummy.set_languages_fields source_lang target_lang c s).
  assert (Hrun1 : Gummy.is_running s1 = Gummy.is_running s) by done.
  rewrite Hrun1. split.
  - intros Hrun. by rewrite Hrun.
  - intros Hrun Hk Hstart. rewrite Hrun. cbn [fst snd].
    destruct (start_runs e (Gummy.stop e s1).1) as (E1 & E2 & E3 & E4 & E5);
      [done|done|done|].
    destruct (start_keeps_languages e (Gummy.stop e s1).1) as (L1 & L2 & _).
    rewrite E1, E2, E3, E4, L1, L2.
    repeat split.
    destruct (close_guarded_calls e (Gummy.set_is_running false s1))
      as (calls & Ec & Hc).
    exists ([Gummy.Acquire] ++ calls
            ++ [Gummy.Release; Gummy.Acquire; Gummy.Release]),
      (Gummy.start e (Gummy.stop e s1).1).2.
    split; [|split; [done|]].
    + unfold Gummy.stop, Gummy.close_audio_resources, Gummy.close_again.
      cbn [fst snd]. rewrite Ec. cbn. by rewrite <- !app_assoc.
    + rewrite !elem_of_app, !elem_of_cons, elem_of_nil.
      intros [?|[Hin|?]]; [intuition discriminate| |intuition discriminate].
      eapply Forall_forall in Hc; [|exact Hin].
      destruct Hc as [?|[?|[?|?]]]; discriminate.
Qed.

Lemma X12_witness :
  Gummy.supported (ustr "ja-JP") = true
  ∧ Gummy.supported (ustr "fr-FR") = true
  ∧ Gummy.is_running
      (Gummy.set_languages calm (ustr "ja-JP") (ustr "fr-FR")
         dead_recognition).1.2 = true.
Proof.
  assert (H1 : Gummy.supported (ustr "ja-JP") = true) by (by vm_compute).
  assert (H2 : Gummy.supported (ustr "fr-FR") = true) by (by vm_compute).
  split; [exact H1|]. split; [exact H2|].
  destruct (X12_language_change_restarts_running_service calm
              (ustr "ja-JP") (ustr "fr-FR") dead_recognition H1 H2)
    as [_ H].
  destruct H as (E & _); [reflexivity|discriminate|done|exact E].
Defined.


(** ** The stored API keys *)

Lemma string_append_length (a b : string) :
  String.length (String.append a b) = String.length a + String.length b.
Proof.
  induction a as [|c a IH]; [done|].
  change (String.append (String c a) b) with (String c (String.append a b)).
  cbn [String.length]. by rewrite IH.
Qed.

Lemma encoded_option_fresh key_type :
  Gummy.encoded_option key_type ≠ key_type.
Proof.
  intros H. apply (f_equal String.length) in H.
  unfold Gummy.encoded_option in H. rewrite string_append_length in H.
  simpl in H. lia.
Qed.

(** X14.  With a cipher that gives a non-empty token for every non-empty
    key and decrypts its tokens, [load_api_key] returns the key that
    [save_api_key] stored, the empty key included, and the key itself is
    never left in the configuration: the option named after the key type
    is empty after every save.  Saving one of the two key types does not
    change what is loaded for the other. *)
Theorem X14_api_key_round_trip (encrypt : pystr → pystr)
    (decrypt : pystr → option pystr) (c : gmap (string * string) pystr)
    (api_key : pystr) (key_type : string) :
  (∀ k, k ≠ [] → encrypt k ≠ [] ∧ decrypt (encrypt k) = Some k) →
  let c' := Gummy.save_api_key encrypt c api_key key_type in
  Gummy.load_api_key decrypt c' key_type = api_key
  ∧ Gummy.config_get c' "API" key_type [] = []
  ∧ Gummy.load_api_key decrypt
      (Gummy.save_api_key encrypt c api_key "tts_api_key") "api_key"
    = Gummy.load_api_key decrypt c "api_key"
  ∧ Gummy.load_api_key decrypt
      (Gummy.save_api_key encrypt c api_key "api_key") "tts_api_key"
    = Gummy.load_api_key decrypt c "tts_api_key".
Proof.
  intros Hcipher c'. subst c'.
  pose proof (encoded_option_fresh key_type) as Hfresh.
  unfold Gummy.load_api_key, Gummy.save_api_key, Gummy.config_get,
    Gummy.config_set.
  destruct api_key as [|k0 k] eqn:Hkey.
  - repeat split.
    + rewrite lookup_insert_eq. simpl.
      rewrite lookup_insert_ne by congruence. by rewrite lookup_insert_eq.
    + rewrite lookup_insert_ne by congruence. by rewrite lookup_insert_eq.
    + by rewrite !lookup_insert_ne by done.
    + by rewrite !lookup_insert_ne by done.
  - destruct (Hcipher (k0 :: k)) as [Hne Hdec]; [done|].
    repeat split.
    + rewrite lookup_insert_ne by congruence. rewrite lookup_insert_eq. simpl.
      destruct (encrypt (k0 :: k)) eqn:E; [done|]. by rewrite Hdec.
    + by rewrite lookup_insert_eq.
    + by rewrite !lookup_insert_ne by done.
    + by rewrite !lookup_insert_ne by done.
Qed.

Lemma X14_witness :
  (∀ k : pystr, k ≠ [] → id k ≠ [] ∧ Some (id k) = Some k)
  ∧ Gummy.load_api_key Some
      (Gummy.save_api_key id ∅ (ustr "sk-key") "api_key") "api_key"
    = ustr "sk-key".
Proof.
  assert (H : ∀ k : pystr, k ≠ [] → id k ≠ [] ∧ Some (id k) = Some k)
    by (by intros k Hk).
  split; [exact H|].
  destruct (X14_api_key_round_trip id Some ∅ (ustr "sk-key") "api_key" H)
    as (E & _).
  exact E.
Defined.

(** X15.  A key stored by [save_api_key] is not the key the service uses:
    [__init__] reads the option [api_key], which every save leaves empty, so
    [start] on a service made from such a configuration only posts the
    missing-key status and starts nothing; and [start] reads the option
    [tts_api_key], so after a save of the synthesis key no synthesis thread
    is ever started. *)
Theorem X15_saved_keys_are_not_read_by_start (encrypt : pystr → pystr)
    (c : gmap (string * string) pystr) (key : pystr) (tts : bool)
    (e : Gummy.env) (s : Gummy.service) :
  let saved := Gummy.save_api_key encrypt c key "api_key" in
  let saved_tts := Gummy.save_api_key encrypt c key "tts_api_key" in
  Gummy.api_key (Gummy.new_service saved tts) = []
  ∧ Gummy.start e (Gummy.new_service saved tts)
    = (Gummy.new_service saved tts, [Gummy.PostStatus Gummy.NoApiKey])
  ∧ (Gummy.config s = saved_tts →
     ¬ starts_thread Gummy.TtsThread (Gummy.start e s).2).
Proof.
  intros saved saved_tts.
  assert (Hk : ∀ key_type,
            Gummy.config_get (Gummy.save_api_key encrypt c key key_type)
              "API" key_type [] = []).
  { intros key_type. pose proof (encoded_option_fresh key_type).
    unfold Gummy.save_api_key, Gummy.config_get, Gummy.config_set.
    destruct key.
    - rewrite lookup_insert_ne by congruence. by rewrite lookup_insert_eq.
    - by rewrite lookup_insert_eq. }
  assert (Gummy.api_key (Gummy.new_service saved tts) = []) as Hempty
    by apply Hk.
  split; [exact Hempty|]. split.
  - unfold Gummy.start. rewrite Hempty. cbn [Gummy.is_running
      Gummy.new_service orb]. by rewrite bool_decide_eq_true_2.
  - intros Hc Hstart. unfold starts_thread, Gummy.start in Hstart.
    cbn [Gummy.enable_tts Gummy.set_threads Gummy.set_is_running Gummy.config]
      in Hstart.
    rewrite Hc in Hstart. subst saved_tts. rewrite Hk in Hstart.
    rewrite (bool_decide_eq_true_2 ([] = [])) in Hstart by done.
    destruct (Gummy.is_running s || bool_decide (Gummy.api_key s = []));
      [destruct (bool_decide (Gummy.api_key s = []))|];
      [..|destruct (Gummy.thread_start_raises e Gummy.AsrThread);
          [|destruct (Gummy.enable_tts s)]];
      cbn [snd] in Hstart; revert Hstart; effect_mem.
Qed.

(** ** The languages chosen in the dialog *)



(** ** Opening and closing the microphone *)

(** X17.  In [gummy.py], when no device call raises, [on_close] after
    [on_open] leaves neither a stream nor a PyAudio object, also when opening
    the stream had raised.  In [gummy_translator.py] [on_close] does nothing
    when there is no stream: after an [on_open] whose stream did not open,
    the PyAudio object is never terminated. *)
Theorem X17_close_after_open (e : Gummy.env) (open_raises : bool)
    (s : Gummy.service) (d : GummyTranslator.device) :
  Gummy.stop_stream_raises e = false →
  Gummy.close_raises e = false →
  Gummy.terminate_raises e = false →
  let r := Gummy.on_close e (Gummy.on_open open_raises s) in
  Gummy.audio_stream r.1.1 = false ∧ Gummy.mic r.1.1 = false
  ∧ r.2 = false
  ∧ Gummy.Terminate ∈ r.1.2
  ∧ (GummyTranslator.audio_stream d = false →
     GummyTranslator.on_close e (GummyTranslator.on_open true d)
     = ({| GummyTranslator.mic := true;
           GummyTranslator.audio_stream := false |}, [], false))
  ∧ GummyTranslator.on_close e (GummyTranslator.on_open false d)
    = ({| GummyTranslator.mic := false;
          GummyTranslator.audio_stream := false |},
       [Gummy.StopStream; Gummy.CloseStream; Gummy.Terminate], false).
Proof.
  intros H1 H2 H3 r. subst r.
  assert (Hg : ∀ s', Gummy.mic s' = true →
            Gummy.on_close e s'
            = (Gummy.set_audio false false s',
               (if Gummy.audio_stream s'
                then [Gummy.Acquire; Gummy.StopStream; Gummy.CloseStream;
                      Gummy.Terminate; Gummy.Release]
                else [Gummy.Acquire; Gummy.Terminate; Gummy.Release]),
               false)).
  { intros s' Hm. unfold Gummy.on_close. rewrite H1, H2, H3, Hm.
    by destruct (Gummy.audio_stream s'). }
  rewrite Hg by (unfold Gummy.on_open; by destruct open_raises).
  cbn [fst snd]. split; [done|]. split; [done|]. split; [done|]. split.
  { destruct (Gummy.audio_stream (Gummy.on_open open_raises s)); effect_mem. }
  unfold GummyTranslator.on_close, GummyTranslator.on_open.
  cbn [GummyTranslator.audio_stream GummyTranslator.mic negb].
  rewrite H1, H2, H3. split; [|done].
  by intros ->.
Qed.

Lemma X17_witness :
  Gummy.stop_stream_raises calm = false
  ∧ Gummy.mic (Gummy.on_close calm
                 (Gummy.on_open true (Gummy.new_service ∅ false))).1.1
    = false.
Proof.
  split; [reflexivity|].
  destruct (X17_close_after_open calm true (Gummy.new_service ∅ false)
              {| GummyTranslator.mic := false;
                 GummyTranslator.audio_stream := false |}
              eq_refl eq_refl eq_refl) as (_ & E & _).
  exact E.
Defined.

(** ** The keys of the original window *)



Lemma translator_on_events_snoc evs ev cb q :
  GummyTranslator.on_events (evs ++ [ev]) cb q
  = GummyTranslator.on_event ev.1 ev.2
      (GummyTranslator.on_events evs cb q).1
      (GummyTranslator.on_events evs cb q).2.
Proof. unfold GummyTranslator.on_events. by rewrite fold_left_app. Qed.

(** X19.  In [gummy_translator.py] the callback queues fixed words whether
    synthesis is enabled or not, and Alt+S discards them when it switches
    synthesis on: after that key the queue is empty and the first round of
    the synthesis loop only sleeps.  Switching synthesis off keeps the
    queue. *)
Theorem X19_enabling_synthesis_discards_queue (tr : Result)
    (fx unfixed : list Word) (cb : GummyTranslator.callback)
    (q : GummyTranslator.queues) (c : GummyTranslator.controls)
    (req : Gummy.request_outcome) (buffer : pystr) :
  words tr = fx ++ unfixed →
  Forall (λ w, fixed w = true) fx →
  Forall (λ w, fixed w = false) unfixed →
  GummyTranslator.tg_word_ptr cb = 0 →
  let queued :=
    GummyTranslator.asr_fixed_words
      (GummyTranslator.on_event None (Some tr) cb q).2 in
  let c' := GummyTranslator.on_key_press GummyTranslator.AltS c in
  queued = GummyTranslator.asr_fixed_words q ++ map item_of fx
           ++ (if is_sentence_end tr then [([], true)] else [])
  ∧ GummyTranslator.enable_tts c' = negb (GummyTranslator.enable_tts c)
  ∧ (GummyTranslator.enable_tts c = false →
     GummyTranslator.fixed_words c' = []
     ∧ GummyTranslator.tts_iteration (GummyTranslator.enable_tts c') req
         buffer (GummyTranslator.fixed_words c')
       = (buffer, [], [Gummy.Sleep 10]))
  ∧ (GummyTranslator.enable_tts c = true →
     GummyTranslator.fixed_words c' = GummyTranslator.fixed_words c).
Proof.
  intros Hw Hfx Hun Hp queued c'. subst queued c'. split.
  - unfold GummyTranslator.on_event. rewrite translator_put_fold, Hw, Hp.
    fold (Gummy.enumerate (fx ++ unfixed)).
    rewrite put_fold_prefix by (done || lia).
    rewrite drop_0. destruct (is_sentence_end tr); cbn.
    + by rewrite <- app_assoc.
    + by rewrite app_nil_r.
  - cbn. split; [done|]. split; intros ->; by cbn.
Qed.

Lemma X19_witness :
  words R2 = words R2 ++ []
  ∧ GummyTranslator.asr_fixed_words
      (GummyTranslator.on_event None (Some R2) GummyTranslator.init_callback
         {| GummyTranslator.wx_text_queue := [];
            GummyTranslator.asr_fixed_words := [] |}).2
    = [(ustr "他", false); (ustr "好", false); (ustr "。", false);
       ([], true)].
Proof.
  assert (H : words R2 = words R2 ++ []) by (by rewrite app_nil_r).
  split; [exact H|].
  destruct (X19_enabling_synthesis_discards_queue R2 (words R2) []
              GummyTranslator.init_callback
              {| GummyTranslator.wx_text_queue := [];
                 GummyTranslator.asr_fixed_words := [] |}
              GummyTranslator.init_controls Gummy.Raised [] H)
    as (E & _).
  - repeat constructor.
  - constructor.
  - reflexivity.
  - exact E.
Defined.

(** ** The buffers after a change of language *)

Lemma process_result_list res l box :
  l ≠ [] →
  ∃ l' box',
    Gummy.process_result res (Gummy.PyList l) box
    = Returns (Gummy.PyList l', box')
    ∧ length l'
      = length l
        + match res with
          | Some r => if is_sentence_end r then 1 else 0
          | None => 0
          end.
Proof.
  intros Hl. destruct res as [r|]; [|exists l, box; split; [done|lia]].
  destruct (snoc_cases l) as [->|(pre & t & ->)]; [done|].
  rewrite gummy_process_list. eexists _, _. split; [reflexivity|].
  unfold replaced. rewrite !length_app.
  destruct (is_sentence_end r); simpl; lia.
Qed.

Lemma update_text_list_buffers a t w :
  list_buffers w →
  ∃ w', Gummy.update_text a t w = Returns w'
        ∧ list_buffers w'
        ∧ Gummy.len (Gummy.chinese_text_buffer w')
          = Gummy.len (Gummy.chinese_text_buffer w)
            + match a with
              | Some r => if is_sentence_end r then 1 else 0
              | None => 0
              end.
Proof.
  intros (lc & lt & Ec & Hc & Et & Hlt). unfold Gummy.update_text.
  rewrite Ec, Et. unfold Gummy.len at 1. cbn [Gummy.items Gummy.slice_last].
  set (lt' := if (Gummy.MAX_BUFFER_SIZE <? length lt)%nat
              then last_n Gummy.MAX_BUFFER_SIZE lt else lt).
  assert (Hlt' : 1 ≤ length lt' ≤ 20).
  { subst lt'. unfold Gummy.MAX_BUFFER_SIZE.
    destruct (20 <? length lt)%nat eqn:E.
    - apply Nat.ltb_lt in E. rewrite last_n_length. lia.
    - apply Nat.ltb_ge in E. lia. }
  assert ((if (Gummy.MAX_BUFFER_SIZE <? length lt)%nat
           then Returns (Gummy.PyList (last_n Gummy.MAX_BUFFER_SIZE lt))
           else Returns (Gummy.PyList lt)) = Returns (Gummy.PyList lt')) as ->.
  { subst lt'. by destruct (Gummy.MAX_BUFFER_SIZE <? length lt)%nat. }
  cbn [mbind outcome_bind].
  destruct (process_result_list a lc (Gummy.chinese_text_box w) Hc)
    as (lc' & cbox & -> & Hlc').
  cbn [mbind outcome_bind].
  destruct (process_result_list t lt' (Gummy.target_text_box w))
    as (lt'' & tbox & -> & Hlt''); [by destruct lt'; simpl in *; [lia|]|].
  cbn [mbind outcome_bind mret outcome_ret]. eexists. split; [reflexivity|].
  cbn [Gummy.chinese_text_buffer Gummy.target_language_text_buffer fst snd].
  split.
  - exists lc', lt''. split; [done|]. split.
    + destruct lc'; [|done]. destruct lc; [done|]. simpl in Hlc'. lia.
    + split; [done|]. destruct t as [r|]; [destruct (is_sentence_end r)|]; lia.
  - unfold Gummy.len. simpl. lia.
Qed.

(** X20.  After [apply_settings] has re-created the buffers for a new
    language, [update_text] still never raises, but the bound of 20 lines is
    gone: the target buffer, cut to 20 lines only at the start of the next
    update, holds up to 21 lines, and the source buffer is never cut: every
    transcription that ends a sentence makes it one line longer. *)
Theorem X20_list_buffers_after_language_change (w : Gummy.window) :
  list_reachable w →
  Gummy.len (Gummy.target_language_text_buffer w) ≤ 21
  ∧ ∀ a t,
      ∃ w', Gummy.update_text a t w = Returns w'
            ∧ list_reachable w'
            ∧ Gummy.len (Gummy.chinese_text_buffer w')
              = Gummy.len (Gummy.chinese_text_buffer w)
                + match a with
                  | Some r => if is_sentence_end r then 1 else 0
                  | None => 0
                  end.
Proof.
  intros Hw.
  assert (Hinv : list_buffers w).
  { induction Hw as [w|w a t w' _ IH Hu].
    - exists [empty_line], [empty_line]. simpl. repeat split; (done || lia).
    - destruct (update_text_list_buffers a t w IH) as (w2 & E & H2 & _).
      rewrite E in Hu. by injection Hu as <-. }
  split.
  - destruct Hinv as (lc & lt & _ & _ & -> & Hlt). unfold Gummy.len.
    simpl. lia.
  - intros a t.
    destruct (update_text_list_buffers a t w Hinv) as (w' & E & _ & Hl).
    exists w'. split; [done|]. split; [|done]. by eapply reach_list_update.
Qed.

Lemma X20_witness :
  list_reachable (Gummy.apply_settings_language_changed Gummy.init_window)
  ∧ Gummy.len
      (Gummy.target_language_text_buffer
         (Gummy.apply_settings_language_changed Gummy.init_window)) ≤ 21.
Proof.
  split; [apply reach_language_changed|].
  destruct (X20_list_buffers_after_language_change
              (Gummy.apply_settings_language_changed Gummy.init_window)
              (reach_language_changed Gummy.init_window)) as [E _].
  exact E.
Defined.

(** ** What the text box shows *)





(** ** The feed loop *)

Lemma feed_loop_running pre :
  Forall (λ t, Gummy.running t = true) pre →
  (Gummy.feed_loop pre).2 = Gummy.Looping
  ∧ length (List.filter is_send (Gummy.feed_loop pre).1)
    = length (List.filter feeds pre)
  ∧ slept (Gummy.feed_loop pre).1
    = 100 * (length pre - length (List.filter feeds pre)).
Proof.
  induction 1 as [|t pre Hr Hpre (IH1 & IH2 & IH3)]; [done|].
  assert (Hle : length (List.filter feeds pre) ≤ length pre)
    by apply List.filter_length_le.
  cbn [Gummy.feed_loop]. rewrite Hr. cbn [negb fst snd].
  split; [done|]. unfold slept in *.
  rewrite List.filter_app, length_app, map_app, list_sum_app, IH2, IH3.
  cbn [List.filter length].
  assert (feeds t = Gummy.stream_open t && Gummy.frame_ok t) as -> by done.
  destruct (Gummy.stream_open t), (Gummy.frame_ok t);
    cbn [andb List.filter is_send length map list_sum foldr]; lia.
Qed.

(** X22.  The feed loop of [gummy.py] is left only by [is_running] found
    false at the head of a pass, and what would follow is not executed.
    Until then every pass either reads and sends one frame or sleeps 100
    milliseconds (device not open, or reading failed): a failing read
    neither ends the loop nor spins.  The feed loop of
    [gummy_translator.py] never sleeps. *)
Theorem X22_feed_loop_left_only_on_stop (pre post : list Gummy.tick)
    (t : Gummy.tick) :
  Forall (λ t, Gummy.running t = true) pre →
  Gummy.running t = false →
  Gummy.feed_loop (pre ++ t :: post)
  = ((Gummy.feed_loop pre).1, Gummy.Left)
  ∧ (Gummy.feed_loop pre).2 = Gummy.Looping
  ∧ length (List.filter is_send (Gummy.feed_loop pre).1)
    = length (List.filter feeds pre)
  ∧ slept (Gummy.feed_loop pre).1
    = 100 * (length pre - length (List.filter feeds pre))
  ∧ slept (GummyTranslator.feed_loop (pre ++ t :: post)).1 = 0.
Proof.
  intros Hpre Ht.
  destruct (feed_loop_running pre Hpre) as (H1 & H2 & H3).
  repeat split; try done.
  - clear H1 H2 H3. induction Hpre as [|u pre Hu _ IH].
    + simpl. by rewrite Ht.
    + cbn [app Gummy.feed_loop]. by rewrite Hu, IH.
  - generalize (pre ++ t :: post). clear. intros l. unfold slept.
    induction l as [|u l IH]; [done|]. cbn [GummyTranslator.feed_loop].
    destruct (Gummy.stream_open u); [|done]. cbn [fst].
    rewrite map_app, list_sum_app, IH.
    by destruct (Gummy.frame_ok u).
Qed.

Lemma X22_witness :
  Gummy.feed_loop
    [ {| Gummy.running := true; Gummy.stream_open := true;
         Gummy.frame_ok := false |};
      {| Gummy.running := false; Gummy.stream_open := true;
         Gummy.frame_ok := true |};
      {| Gummy.running := true; Gummy.stream_open := true;
         Gummy.frame_ok := true |} ]
  = ([Gummy.Log; Gummy.Sleep 100], Gummy.Left).
Proof.
  destruct (X22_feed_loop_left_only_on_stop
              [ {| Gummy.running := true; Gummy.stream_open := true;
                   Gummy.frame_ok := false |} ]
              [ {| Gummy.running := true; Gummy.stream_open := true;
                   Gummy.frame_ok := true |} ]
              {| Gummy.running := false; Gummy.stream_open := true;
                 Gummy.frame_ok := true |}) as (E & _).
  - by repeat constructor.
  - reflexivity.
  - exact E.
Defined.
